(** * Morpho backend: request orchestration core

    A shallow embedding of the backend's rate limiter
    (middleware/rateLimiting), content cache and session service
    (services/cacheService.ts), template usage bookkeeping
    (models/Analytics.ts) and the image-edit handler
    (handlers/editHandler). Instants are [Date.now()] readings in
    milliseconds, modelled as [Z]. *)

From Stdlib Require Import ZArith QArith Lia Lqa List String Bool.
From stdpp Require Import base gmap strings list.

Import ListNotations.
Open Scope Z_scope.

(** ** Rate limiter (middleware/rateLimiting) *)
Module RateLimiter.

(** [interface RateLimitConfig]; message and skip flags do not affect
    the counting and are left out. *)
Record RateLimitConfig := mkConfig {
  windowMs : Z;
  maxRequests : Z
}.

(** [interface RateLimitEntry] *)
Record RateLimitEntry := mkEntry {
  count : Z;
  resetTime : Z
}.

(** [private store: Map<string, RateLimitEntry>] *)
Abbreviation Store := (gmap string RateLimitEntry).

(** [isAllowed(key, config)] at clock reading [now]: the decision and
    the store after the call. [entry.count++] mutates the stored entry
    in place, modelled as an insert of the updated entry. *)
Definition isAllowed (now : Z) (key : string) (config : RateLimitConfig)
    (store : Store) : bool * Store :=
  match store !! key with
  | Some entry =>
      if resetTime entry <? now then
        (true, <[key := mkEntry 1 (now + windowMs config)]> store)
      else if maxRequests config <=? count entry then (false, store)
      else (true, <[key := mkEntry (count entry + 1) (resetTime entry)]> store)
  | None => (true, <[key := mkEntry 1 (now + windowMs config)]> store)
  end.

(** [getRemainingRequests(key, config)] *)
Definition getRemainingRequests (now : Z) (key : string)
    (config : RateLimitConfig) (store : Store) : Z :=
  match store !! key with
  | Some entry =>
      if resetTime entry <? now then maxRequests config
      else Z.max 0 (maxRequests config - count entry)
  | None => maxRequests config
  end.

(** [getResetTime(key)] *)
Definition getResetTime (now : Z) (key : string) (store : Store) : Z :=
  match store !! key with
  | Some entry => resetTime entry
  | None => now
  end.

(** [Math.ceil(x / 1000)] on an integer number of milliseconds. *)
Definition ceil_div1000 (x : Z) : Z := - ((- x) / 1000).

(** What the middleware sends: a pass to [next()] with the
    X-RateLimit-Remaining and X-RateLimit-Reset headers, or a 429 reply
    whose body and Retry-After header carry [retryAfter]. *)
Inductive Outcome :=
  | Next (remaining reset : Z)
  | TooMany (retryAfter reset : Z).

(** The handler returned by [middleware(config)], for a request whose
    [getKey(req)] is [key]. The [Date.now()] readings made during one
    synchronous invocation are taken to be the same instant [now]. *)
Definition middleware (config : RateLimitConfig) (now : Z) (key : string)
    (store : Store) : Outcome * Store :=
  let (allowed, store') := isAllowed now key config store in
  if negb allowed then
    let reset := getResetTime now key store' in
    (TooMany (ceil_div1000 (reset - now)) reset, store')
  else
    (Next (getRemainingRequests now key config store')
          (getResetTime now key store'), store').

(** [rateLimits.search]: 5 minutes, 50 requests. *)
Definition searchConfig : RateLimitConfig := mkConfig (5 * 60 * 1000) 50.
(** [rateLimits.imageEdit]: 1 hour, 10 requests. *)
Definition imageEditConfig : RateLimitConfig := mkConfig (60 * 60 * 1000) 10.

(** A sequence of requests with the same key, at the given instants. *)
Fixpoint run (config : RateLimitConfig) (key : string) (times : list Z)
    (store : Store) : list Outcome * Store :=
  match times with
  | [] => ([], store)
  | t :: ts =>
      let (o, store') := middleware config t key store in
      let (os, store'') := run config key ts store' in
      (o :: os, store'')
  end.

Definition is_next (o : Outcome) : bool :=
  match o with Next _ _ => true | TooMany _ _ => false end.

(** [private cleanup()], run by the 5-minute timer: entries with
    [resetTime < now] are deleted. *)
Definition cleanup (now : Z) (store : Store) : Store :=
  filter (fun kv : string * RateLimitEntry => ~ (resetTime kv.2 < now)) store.

End RateLimiter.

(** ** Content cache ([class CacheService]) *)
Module Cache.

(** [interface CacheConfig] *)
Record CacheConfig := mkCacheConfig {
  defaultTTL : Z;
  maxSize : Z;
  cleanupInterval : Z
}.

Section CacheService.
Context {V : Type}.

(** [interface CacheEntry<T>] *)
Record CacheEntry := mkCacheEntry {
  data : V;
  expiresAt : Z;
  createdAt : Z;
  accessCount : Z;
  lastAccessed : Z
}.

(** [private cache: Map<string, CacheEntry<any>>]: a JS Map iterates in
    insertion order, and [Map.set] on a present key keeps its place. *)
Definition Cache := list (string * CacheEntry).

Fixpoint map_get (key : string) (c : Cache) : option CacheEntry :=
  match c with
  | [] => None
  | (k, e) :: rest => if String.eqb k key then Some e else map_get key rest
  end.

Fixpoint map_set (key : string) (e : CacheEntry) (c : Cache) : Cache :=
  match c with
  | [] => [(key, e)]
  | (k, e') :: rest =>
      if String.eqb k key then (key, e) :: rest
      else (k, e') :: map_set key e rest
  end.

Fixpoint map_delete (key : string) (c : Cache) : Cache :=
  match c with
  | [] => []
  | (k, e) :: rest => if String.eqb k key then rest else (k, e) :: map_delete key rest
  end.

(** The loop of [evictOldest]: [oldestKey] and [oldestTime], updated on
    a strictly smaller [lastAccessed], in iteration order. *)
Definition evict_scan (now : Z) (c : Cache) : string * Z :=
  fold_left
    (fun acc (p : string * CacheEntry) =>
       if lastAccessed (snd p) <? snd acc then (fst p, lastAccessed (snd p))
       else acc)
    c (""%string, now).

(** [private evictOldest()]: [oldestTime] starts at [Date.now()], and the
    delete is skipped when [oldestKey] is still the falsy ['']. *)
Definition evictOldest (now : Z) (c : Cache) : Cache :=
  let oldestKey := fst (evict_scan now c) in
  if String.eqb oldestKey "" then c else map_delete oldestKey c.

(** [ttl || this.config.defaultTTL]: an absent or zero [ttl] is falsy. *)
Definition effective_ttl (config : CacheConfig) (ttl : option Z) : Z :=
  match ttl with
  | Some t => if t =? 0 then defaultTTL config else t
  | None => defaultTTL config
  end.

(** [set(key, data, ttl?)] *)
Definition set (config : CacheConfig) (now : Z) (key : string) (d : V)
    (ttl : option Z) (c : Cache) : Cache :=
  let exp := now + effective_ttl config ttl in
  let c1 := if maxSize config <=? Z.of_nat (length c) then evictOldest now c else c in
  map_set key (mkCacheEntry d exp now 0 now) c1.

(** [get(key)]: the value (or [null]) and the cache afterwards. *)
Definition get (now : Z) (key : string) (c : Cache) : option V * Cache :=
  match map_get key c with
  | None => (None, c)
  | Some e =>
      if expiresAt e <? now then (None, map_delete key c)
      else (Some (data e),
            map_set key (mkCacheEntry (data e) (expiresAt e) (createdAt e)
                           (accessCount e + 1) now) c)
  end.

(** [has(key)] *)
Definition has (now : Z) (key : string) (c : Cache) : bool * Cache :=
  match map_get key c with
  | None => (false, c)
  | Some e => if expiresAt e <? now then (false, map_delete key c) else (true, c)
  end.

(** [private cleanup()] *)
Definition cleanup (now : Z) (c : Cache) : Cache :=
  List.filter (fun p => negb (expiresAt (snd p) <? now)) c.

(** The operations a caller (or the cleanup timer) performs on the
    cache, each at its own [Date.now()]; [getOrSet] is a [get]
    followed, on a miss, by a [set]. *)
Inductive CacheOp :=
  | OpSet (now : Z) (key : string) (d : V) (ttl : option Z)
  | OpGet (now : Z) (key : string)
  | OpHas (now : Z) (key : string)
  | OpDelete (key : string)
  | OpCleanup (now : Z).

Definition step (config : CacheConfig) (op : CacheOp) (c : Cache) : Cache :=
  match op with
  | OpSet now key d ttl => set config now key d ttl c
  | OpGet now key => snd (get now key c)
  | OpHas now key => snd (has now key c)
  | OpDelete key => map_delete key c
  | OpCleanup now => cleanup now c
  end.

Fixpoint exec (config : CacheConfig) (ops : list CacheOp) (c : Cache) : Cache :=
  match ops with
  | [] => c
  | op :: rest => exec config rest (step config op c)
  end.

(** [op] neither sets nor deletes [key]. *)
Definition spares (key : string) (op : CacheOp) : bool :=
  match op with
  | OpSet _ k _ _ => negb (String.eqb k key)
  | OpDelete k => negb (String.eqb k key)
  | _ => true
  end.

(** [getOrSet(key, fetcher, ttl?)]: the value returned, whether the
    fetcher was awaited, and the cache afterwards; [fetched] is what the
    fetcher resolves to. Values are never [null] here, so a hit is a
    [get] answering [Some]. *)
Definition getOrSet (config : CacheConfig) (now : Z) (key : string)
    (fetched : V) (ttl : option Z) (c : Cache) : V * bool * Cache :=
  match get now key c with
  | (Some v, c1) => (v, false, c1)
  | (None, c1) => (fetched, true, set config now key fetched ttl c1)
  end.

End CacheService.
Arguments CacheEntry : clear implicits.
Arguments Cache : clear implicits.
Arguments CacheOp : clear implicits.

(** The object [getStats()] returns. *)
Record CacheStats := mkCacheStats {
  stats_size : Z;
  stats_maxSize : Z;
  totalAccessCount : Z;
  expiredCount : Z;
  hitRate : Q
}.

(** [getStats()] and [private calculateHitRate()], which call each
    other unconditionally. [fuel] is the call-stack depth left; [None]
    is the stack overflow ([RangeError]) that ends the recursion. *)
Fixpoint getStats {V : Type} (fuel : nat) (config : CacheConfig) (now : Z)
    (c : Cache V) : option CacheStats :=
  match fuel with
  | O => None
  | S n =>
      let total := fold_left (fun acc p => acc + accessCount (snd p)) c 0 in
      let expired :=
        Z.of_nat (length (List.filter (fun p => expiresAt (snd p) <? now) c)) in
      match calculateHitRate n config now c with
      | Some hr => Some (mkCacheStats (Z.of_nat (length c)) (maxSize config)
                                      total expired hr)
      | None => None
      end
  end
with calculateHitRate {V : Type} (fuel : nat) (config : CacheConfig) (now : Z)
    (c : Cache V) : option Q :=
  match fuel with
  | O => None
  | S n =>
      match getStats n config now c with
      | Some stats =>
          Some (if 0 <? totalAccessCount stats
                then (inject_Z (stats_size stats) / inject_Z (totalAccessCount stats)
                      * 100)%Q
                else 0%Q)
      | None => None
      end
  end.

(** The exported [cacheService] singleton. *)
Definition cacheServiceConfig : CacheConfig :=
  mkCacheConfig (10 * 60 * 1000) 500 (2 * 60 * 1000).

End Cache.

(** ** Session registry ([class UserSessionService]) *)
Module Sessions.

(** [interface SessionData]; user agent, address and preferences do not
    take part in the activity bookkeeping and are left out. *)
Record SessionData := mkSession {
  sessionId : string;
  userId : option string;
  createdAt : Z;
  lastActivity : Z;
  isActive : bool
}.

(** [private sessions: Map<string, SessionData>] *)
Abbreviation Sessions := (gmap string SessionData).

(** [private sessionTimeout] default: 24 hours. *)
Definition defaultSessionTimeout : Z := 24 * 60 * 60 * 1000.

Definition touched (now : Z) (s : SessionData) : SessionData :=
  mkSession (sessionId s) (userId s) (createdAt s) now (isActive s).

(** [getSession(sessionId)] *)
Definition getSession (sessionTimeout now : Z) (sid : string) (st : Sessions)
    : option SessionData * Sessions :=
  match st !! sid with
  | Some s =>
      if negb (isActive s) then (None, st)
      else if sessionTimeout <? now - lastActivity s then (None, delete sid st)
      else (Some (touched now s), <[sid := touched now s]> st)
  | None => (None, st)
  end.

(** [updateSessionActivity(sessionId)] *)
Definition updateSessionActivity (now : Z) (sid : string) (st : Sessions)
    : bool * Sessions :=
  match st !! sid with
  | Some s =>
      if negb (isActive s) then (false, st)
      else (true, <[sid := touched now s]> st)
  | None => (false, st)
  end.

(** [createSession()] with no user data (the edit handler's call): the
    fresh [uuidv4()] is [sid]; no user is looked up or created. *)
Definition createSession (sid : string) (now : Z) (st : Sessions)
    : SessionData * Sessions :=
  let s := mkSession sid None now now true in
  (s, <[sid := s]> st).

(** [endSession(sessionId)]; the [isActive = false] write is on the
    object being removed. *)
Definition endSession (sid : string) (st : Sessions) : bool * Sessions :=
  match st !! sid with
  | Some _ => (true, delete sid st)
  | None => (false, st)
  end.

(** [private cleanupExpiredSessions()], run by the hourly timer. *)
Definition cleanupExpiredSessions (sessionTimeout now : Z) (st : Sessions)
    : Sessions :=
  filter (fun kv : string * SessionData =>
            ~ (sessionTimeout < now - lastActivity kv.2)) st.

(** JS truthiness of [s.userId]. *)
Definition hasUser (s : SessionData) : bool :=
  match userId s with
  | Some u => negb (String.eqb u "")
  | None => false
  end.

Record SessionStats := mkSessionStats {
  totalSessions : nat;
  activeSessions : nat;
  userSessions : nat;
  anonymousSessions : nat
}.

(** [getSessionStats()] *)
Definition getSessionStats (st : Sessions) : SessionStats :=
  let sessions := map snd (map_to_list st) in
  let active := List.filter isActive sessions in
  mkSessionStats (length sessions) (length active)
    (length (List.filter hasUser active))
    (length (List.filter (fun s => negb (hasUser s)) active)).

(** [getActiveSessionsCount()] *)
Definition getActiveSessionsCount (st : Sessions) : nat :=
  length (List.filter isActive (map snd (map_to_list st))).

End Sessions.

(** ** Template usage and popularity ([templateSchema] in models/Analytics.ts)

    JS numbers are modelled as exact rationals. *)
Module TemplateModel.

Open Scope Q_scope.

(** [usage] subdocument (counters and derived figures). *)
Record Usage := mkUsage {
  totalUses : Z;
  successfulUses : Z;
  failedUses : Z;
  avgProcessingTime : Q;
  popularityScore : Q
}.

(** The fields of a template document the hooks and methods read or
    write; [userFeedback] is the list of ratings. *)
Record TemplateDoc := mkTemplate {
  usage : Usage;
  avgRating : Q;
  userFeedback : list Q
}.

Definition set_usage (t : TemplateDoc) (u : Usage) : TemplateDoc :=
  mkTemplate u (avgRating t) (userFeedback t).

(** [templateSchema.pre('save', ...)]: the popularity score is computed
    from the stored [avgRating] first, then [avgRating] is recomputed
    from the feedback. *)
Definition preSave (t : TemplateDoc) : TemplateDoc :=
  let usageWeight := 7 # 10 in
  let ratingWeight := 3 # 10 in
  let u := usage t in
  let score := inject_Z (successfulUses u) * usageWeight
               + avgRating t * 20 * ratingWeight in
  let u' := mkUsage (totalUses u) (successfulUses u) (failedUses u)
                    (avgProcessingTime u) score in
  let rating :=
    match userFeedback t with
    | [] => avgRating t
    | fb => fold_left Qplus fb 0 / inject_Z (Z.of_nat (length fb))
    end in
  mkTemplate u' rating (userFeedback t).

(** [this.save()], as far as the stored fields are concerned. *)
Definition save (t : TemplateDoc) : TemplateDoc := preSave t.

(** The first [templateSchema.methods.incrementUsage(processingTime,
    success = true)]; the daily-usage list is left out. *)
Definition incrementUsage_first (processingTime : Q) (success : bool)
    (t : TemplateDoc) : TemplateDoc :=
  let u := usage t in
  let total := (totalUses u + 1)%Z in
  let succ := if success then (successfulUses u + 1)%Z else successfulUses u in
  let failed := if success then failedUses u else (failedUses u + 1)%Z in
  let totalTime := avgProcessingTime u * inject_Z (succ - 1) + processingTime in
  let avg := totalTime / inject_Z succ in
  save (set_usage t (mkUsage total succ failed avg (popularityScore u))).

(** JS truthiness of an optional number. *)
Definition truthy (x : option Q) : bool :=
  match x with Some q => negb (Qeq_bool q 0) | None => false end.

(** The second [templateSchema.methods.incrementUsage(processingTime?,
    success?)]. It is assigned to the same [methods] property later in
    the module, so it is the one documents run. *)
Definition incrementUsage (processingTime : option Q) (success : option bool)
    (t : TemplateDoc) : TemplateDoc :=
  let u := usage t in
  let total := (totalUses u + 1)%Z in
  let ok := match success with Some true => true | _ => false end in
  let succ := if ok then (successfulUses u + 1)%Z else successfulUses u in
  let failed := if ok then failedUses u else (failedUses u + 1)%Z in
  let avg :=
    match processingTime with
    | Some pt =>
        if truthy processingTime
        then (avgProcessingTime u * inject_Z (total - 1) + pt) / inject_Z total
        else avgProcessingTime u
    | None => avgProcessingTime u
    end in
  save (set_usage t (mkUsage total succ failed avg (popularityScore u))).

(** An entry of [analytics.userFeedback] (the comment and date are left
    out); a [TemplateDoc] keeps only the ratings of these entries. *)
Record Feedback := mkFeedback {
  fbUserId : string;
  rating : Q
}.

(** [templateSchema.methods.addFeedback(userId, rating)]: the feedback
    entries afterwards and the saved document. *)
Definition addFeedback (userId : string) (r : Q) (fb : list Feedback)
    (t : TemplateDoc) : list Feedback * TemplateDoc :=
  let fb' := List.filter (fun f => negb (String.eqb (fbUserId f) userId)) fb
             ++ [mkFeedback userId r] in
  (fb', save (mkTemplate (usage t) (avgRating t) (map rating fb'))).

End TemplateModel.

(** ** File-backed template catalogue ([class TemplateService]) *)
Module TemplateService.

(** [interface Template] of the service. *)
Record Template := mkTemplate {
  id : string;
  title : string;
  previewUrl : string;
  prompt : string;
  description : option string;
  category : option string
}.

(** [getTemplateById(id)] *)
Definition getTemplateById (i : string) (templates : list Template)
    : option Template :=
  find (fun t => String.eqb (id t) i) templates.

(** [getTemplatePrompt(id)]: [template?.prompt || null]. *)
Definition getTemplatePrompt (i : string) (templates : list Template)
    : option string :=
  match find (fun t => String.eqb (id t) i) templates with
  | Some t => if String.eqb (prompt t) "" then None else Some (prompt t)
  | None => None
  end.

Definition option_string_eqb (x y : option string) : bool :=
  match x, y with
  | Some a, Some b => String.eqb a b
  | None, None => true
  | _, _ => false
  end.

(** [Array.prototype.indexOf] (strict equality), [-1] when absent. *)
Fixpoint indexOf (x : option string) (l : list (option string)) : Z :=
  match l with
  | [] => -1
  | y :: rest =>
      if option_string_eqb y x then 0
      else let i := indexOf x rest in if i =? -1 then -1 else i + 1
  end.

Definition truthy (x : option string) : bool :=
  match x with Some c => negb (String.eqb c "") | None => false end.

(** [getCategories()]: [map] to the categories, then
    [filter((category, index, self) => category && self.indexOf(category) === index)]. *)
Definition getCategories (templates : list Template) : list string :=
  let categories := map category templates in
  let indexed := combine (map Z.of_nat (seq 0 (length categories))) categories in
  map (fun p => match snd p with Some c => c | None => "" end)
    (List.filter (fun p => truthy (snd p) && (indexOf (snd p) categories =? fst p))
       indexed).

End TemplateService.

(** ** Image-edit handler ([EditHandler.editImage], the analytics-aware
    version) with the [asyncHandler] / [errorHandler] wrapping.

    Collaborators (session service, image optimizer, template lookups,
    S3, OpenAI, analytics) are modelled by the answer each gives for the
    request at hand, and every call the handler makes to one of them is
    logged as an event. *)
Module EditPipeline.

Open Scope string_scope.

(** The error classes of middleware/errorHandling.ts, plus plain
    [Error]s thrown by collaborators (with their [name]). *)
Inductive AppErr :=
  | ValidationError (message : string)
  | NotFoundError (resource : string)
  | FileProcessingError (message : string)
  | ExternalServiceError (service message : string)
  | PlainError (name message : string).

(** [error.name]: the [AppError] classes do not assign [name], so they
    inherit [Error.prototype.name]. *)
Definition errName (e : AppErr) : string :=
  match e with
  | PlainError n _ => n
  | _ => "Error"
  end.

Definition errMessage (e : AppErr) : string :=
  match e with
  | ValidationError m => m
  | NotFoundError r => r ++ " not found"
  | FileProcessingError m => "File processing error: " ++ m
  | ExternalServiceError s m => s ++ " service error: " ++ m
  | PlainError _ m => m
  end.

(** The [code] [errorHandler] puts in the reply for an error. *)
Definition errorCode (e : AppErr) : string :=
  match e with
  | ValidationError _ => "VALIDATION_ERROR"
  | NotFoundError _ => "NOT_FOUND"
  | FileProcessingError _ => "FILE_PROCESSING_ERROR"
  | ExternalServiceError _ _ => "EXTERNAL_SERVICE_ERROR"
  | PlainError n _ =>
      if String.eqb n "MulterError" then "FILE_PROCESSING_ERROR"
      else if String.eqb n "ValidationError" then "VALIDATION_ERROR"
      else if String.eqb n "JsonWebTokenError" then "UNAUTHORIZED"
      else if String.eqb n "TokenExpiredError" then "UNAUTHORIZED"
      else if String.eqb n "MongoError" then "DATABASE_ERROR"
      else if String.eqb n "MongooseError" then "DATABASE_ERROR"
      else if String.eqb n "FetchError" then "EXTERNAL_SERVICE_ERROR"
      else if String.eqb n "NetworkError" then "EXTERNAL_SERVICE_ERROR"
      else if String.eqb n "TimeoutError" then "TIMEOUT_ERROR"
      else "INTERNAL_ERROR"
  end.

Inductive Result (A : Type) :=
  | Ok (a : A)
  | Err (e : AppErr).
Arguments Ok {A} a.
Arguments Err {A} e.

(** [req.file] (multer memory storage). *)
Record UploadedFile := mkFile {
  originalname : string;
  size : Z
}.

(** The parts of the request the handler reads; an empty string stands
    for an absent [templateId] body field or [x-session-id] header. *)
Record EditRequest := mkRequest {
  file : option UploadedFile;
  templateIdField : string;
  sessionHeader : string
}.

(** A template document as [Template.findById] returns it. *)
Record DbTemplate := mkDbTemplate {
  prompt : string;
  hasIncrementUsage : bool
}.

Record Optimized := mkOptimized {
  optimizedSize : Z;
  compressionRatio : Z
}.

(** The answers of the collaborators for this request. *)
Record Env := mkEnv {
  newSessionId : string;
  validateImage : Result bool;
  getImageMetadata : Result unit;
  optimizeImage : Result Optimized;
  findById : Result (option DbTemplate);
  getTemplatePrompt : option string;
  uploadImage : Result string;
  openaiEditImage : Result string;
  recordEditSession : Result unit;
  incrementUsageCall : Result unit;
  startTime : Z;
  endTime : Z
}.

(** Calls to collaborators, in the order made. *)
Inductive Event :=
  | EvCreateSession (sid : string)
  | EvTouchSession (sid : string)
  | EvValidateImage
  | EvGetImageMetadata
  | EvOptimizeImage
  | EvFindTemplate (templateId : string)
  | EvTemplatePrompt (templateId : string)
  | EvUploadImage
  | EvOpenAIEdit (sourceUrl prompt : string)
  | EvGetSession (sid : string)
  | EvRecordEditSession (templateId status : string)
  | EvIncrementUsage (templateId : string).

(** What the client receives: the [res.json] of a success, or the
    [{success: false, error, code}] body of [sendErrorResponse]. *)
Inductive Response :=
  | EditSucceeded (imageUrl : string) (processingTime : Z) (sessionId : string)
  | ErrorReply (error code : string).

Definition success (r : Response) : bool :=
  match r with EditSucceeded _ _ _ => true | ErrorReply _ _ => false end.

(** An async handler body: it appends to the log of collaborator calls
    and ends in a value or a thrown error. *)
Definition M (A : Type) := list Event -> list Event * Result A.

Definition ret {A} (a : A) : M A := fun log => (log, Ok a).
Definition throw {A} (e : AppErr) : M A := fun log => (log, Err e).
Definition bind {A B} (m : M A) (k : A -> M B) : M B :=
  fun log => match m log with
             | (log', Ok a) => k a log'
             | (log', Err e) => (log', Err e)
             end.
Definition emit (ev : Event) : M unit := fun log => (app log [ev], Ok tt).
Definition lift {A} (r : Result A) : M A := fun log => (log, r).
(** [try { m } catch (e) { h(e) }] *)
Definition try_catch {A} (m : M A) (h : AppErr -> M A) : M A :=
  fun log => match m log with
             | (log', Ok a) => (log', Ok a)
             | (log', Err e) => h e log'
             end.
(** [await collaborator(...)]: log the call, then take its answer. *)
Definition call {A} (ev : Event) (r : Result A) : M A := bind (emit ev) (fun _ => lift r).

Notation "'let*' x := m 'in' k" := (bind m (fun x => k))
  (at level 200, x name, m at level 100, k at level 200).

(** [if (!x)] on a string. *)
Definition falsy (s : string) : bool := String.eqb s "".

(** The template lookup: [Template.findById] inside its own
    [try/catch], then the template-service fallback. *)
Definition resolvePrompt (env : Env) (templateId : string)
    : M (option DbTemplate * string) :=
  let* template := try_catch (call (EvFindTemplate templateId) (findById env))
                             (fun _ => ret None) in
  let prompt0 := match template with Some t => prompt t | None => "" end in
  if negb (falsy prompt0) then ret (template, prompt0) else
  let* _ := emit (EvTemplatePrompt templateId) in
  match getTemplatePrompt env with
  | Some p => if falsy p then throw (NotFoundError "Template") else ret (template, p)
  | None => throw (NotFoundError "Template")
  end.

(** The analytics block after a successful edit, errors swallowed. *)
Definition recordSuccess (env : Env) (sid templateId : string)
    (template : option DbTemplate) : M unit :=
  try_catch
    (let* _ := emit (EvGetSession sid) in
     let* _ := call (EvRecordEditSession templateId "completed") (recordEditSession env) in
     match template with
     | Some t => if hasIncrementUsage t
                 then call (EvIncrementUsage templateId) (incrementUsageCall env)
                 else ret tt
     | None => ret tt
     end)
    (fun _ => ret tt).

(** [editImage = async (req, res) => { ... }] *)
Definition editImage (env : Env) (req : EditRequest) : M Response :=
  try_catch
    (let* f := match file req with
               | Some f => ret f
               | None => throw (ValidationError "No image file provided")
               end in
     let templateId := templateIdField req in
     let* _ := if falsy templateId then throw (ValidationError "Template ID is required")
               else ret tt in
     let* sid := if falsy (sessionHeader req)
                 then let* _ := emit (EvCreateSession (newSessionId env)) in
                      ret (newSessionId env)
                 else ret (sessionHeader req) in
     let* _ := emit (EvTouchSession sid) in
     let* isValidImage := call EvValidateImage (validateImage env) in
     let* _ := if negb isValidImage then throw (FileProcessingError "Invalid image file")
               else ret tt in
     let* _ := call EvGetImageMetadata (getImageMetadata env) in
     let* _ := call EvOptimizeImage (optimizeImage env) in
     let* tp := resolvePrompt env templateId in
     let* originalImageUrl := call EvUploadImage (uploadImage env) in
     let* editedImageUrl :=
       call (EvOpenAIEdit originalImageUrl (snd tp)) (openaiEditImage env) in
     let processingTime := (endTime env - startTime env)%Z in
     let* _ := recordSuccess env sid templateId (fst tp) in
     ret (EditSucceeded editedImageUrl processingTime sid))
    (fun error =>
       if String.eqb (errName error) "ExternalServiceError"
       then throw (ExternalServiceError "OpenAI" (errMessage error))
       else throw error).

(** The route [app.post('/api/edit', ..., asyncHandler(editHandler.editImage))]
    (after the rate limiter and multer): a thrown error reaches
    [errorHandler], which replies through [sendErrorResponse]. *)
Definition handle (env : Env) (req : EditRequest) : list Event * Response :=
  match editImage env req [] with
  | (log, Ok r) => (log, r)
  | (log, Err e) => (log, ErrorReply (errMessage e) (errorCode e))
  end.

(** An [EditRecord] was handed to the analytics service. *)
Definition recorded (log : list Event) : bool :=
  existsb (fun ev => match ev with EvRecordEditSession _ _ => true | _ => false end) log.

Definition uploaded (log : list Event) : bool :=
  existsb (fun ev => match ev with EvUploadImage => true | _ => false end) log.

End EditPipeline.

(** * Properties *)

(** ** Rate limiter *)
Module RateLimiterFacts.
Import RateLimiter.

Definition no_live_window (now : Z) (key : string) (store : Store) : Prop :=
  match store !! key with
  | Some e => resetTime e < now
  | None => True
  end.

Lemma isAllowed_fresh (now : Z) (key : string) (config : RateLimitConfig)
    (store : Store) :
  no_live_window now key store ->
  isAllowed now key config store
  = (true, <[key := mkEntry 1 (now + windowMs config)]> store).
Proof.
  unfold no_live_window, isAllowed. destruct (store !! key) as [e|]; [|done].
  intros H. apply Z.ltb_lt in H. by rewrite H.
Qed.

Lemma isAllowed_increment (now : Z) (key : string) (config : RateLimitConfig)
    (store : Store) (e : RateLimitEntry) :
  store !! key = Some e -> ~ resetTime e < now -> count e < maxRequests config ->
  isAllowed now key config store
  = (true, <[key := mkEntry (count e + 1) (resetTime e)]> store).
Proof.
  intros Hk Hlive Hlt. unfold isAllowed. rewrite Hk.
  destruct (Z.ltb_spec (resetTime e) now); [lia|].
  destruct (Z.leb_spec (maxRequests config) (count e)); [lia|]. done.
Qed.

Lemma isAllowed_deny (now : Z) (key : string) (config : RateLimitConfig)
    (store : Store) (e : RateLimitEntry) :
  store !! key = Some e -> ~ resetTime e < now -> maxRequests config <= count e ->
  isAllowed now key config store = (false, store).
Proof.
  intros Hk Hlive Hge. unfold isAllowed. rewrite Hk.
  destruct (Z.ltb_spec (resetTime e) now); [lia|].
  destruct (Z.leb_spec (maxRequests config) (count e)); [done|lia].
Qed.

Lemma middleware_deny (config : RateLimitConfig) (now : Z) (key : string)
    (store : Store) (e : RateLimitEntry) :
  store !! key = Some e -> ~ resetTime e < now -> maxRequests config <= count e ->
  middleware config now key store
  = (TooMany (ceil_div1000 (resetTime e - now)) (resetTime e), store).
Proof.
  intros Hk Hlive Hge. unfold middleware.
  rewrite (isAllowed_deny now key config store e Hk Hlive Hge). simpl.
  unfold getResetTime. by rewrite Hk.
Qed.

Lemma middleware_fresh (config : RateLimitConfig) (now : Z) (key : string)
    (store : Store) :
  no_live_window now key store ->
  exists rem rs, middleware config now key store
  = (Next rem rs, <[key := mkEntry 1 (now + windowMs config)]> store).
Proof.
  intros H. unfold middleware. rewrite (isAllowed_fresh now key config store H).
  simpl. eauto.
Qed.

Lemma middleware_increment (config : RateLimitConfig) (now : Z) (key : string)
    (store : Store) (e : RateLimitEntry) :
  store !! key = Some e -> ~ resetTime e < now -> count e < maxRequests config ->
  exists rem rs, middleware config now key store
  = (Next rem rs, <[key := mkEntry (count e + 1) (resetTime e)]> store).
Proof.
  intros Hk Hlive Hlt. unfold middleware.
  rewrite (isAllowed_increment now key config store e Hk Hlive Hlt). simpl. eauto.
Qed.

Lemma ceil_div1000_pos (x : Z) : 0 < x -> 0 < ceil_div1000 x.
Proof.
  intros Hx. unfold ceil_div1000.
  assert (- x / 1000 < 0).
  { apply Z.div_lt_upper_bound; lia. }
  lia.
Qed.

(** Requests inside a live window only count up, and all pass while the
    count stays within the limit. *)
Lemma run_in_window (config : RateLimitConfig) (key : string) (ts : list Z) :
  forall (store : Store) (c r : Z),
  store !! key = Some (mkEntry c r) ->
  Forall (fun t => t <= r) ts ->
  c + Z.of_nat (length ts) <= maxRequests config ->
  map is_next (fst (run config key ts store)) = repeat true (length ts) /\
  snd (run config key ts store) !! key = Some (mkEntry (c + Z.of_nat (length ts)) r).
Proof.
  induction ts as [|t ts IH]; intros store c r Hk Hts Hc.
  - simpl. rewrite Hk. split; [done|]. f_equal. f_equal. lia.
  - inversion Hts as [|? ? Ht Hts']; subst. simpl in Hc.
    destruct (middleware_increment config t key store (mkEntry c r) Hk)
      as (rem & rs & Hm); simpl; [lia|lia|].
    simpl in Hm. simpl. rewrite Hm.
    destruct (run config key ts _) as [os st'] eqn:Er. simpl.
    destruct (IH (<[key := mkEntry (c + 1) r]> store) (c + 1) r) as [H1 H2];
      [by rewrite lookup_insert_eq|done|lia|].
    rewrite Er in H1, H2. simpl in H1, H2. split.
    + rewrite H1. done.
    + rewrite H2. do 2 f_equal. lia.
Qed.

Lemma run_app (config : RateLimitConfig) (key : string) (xs ys : list Z)
    (store : Store) :
  run config key (xs ++ ys) store =
  (fst (run config key xs store) ++
   fst (run config key ys (snd (run config key xs store))),
   snd (run config key ys (snd (run config key xs store)))).
Proof.
  revert store. induction xs as [|x xs IH]; intros store; simpl.
  - by destruct (run config key ys store).
  - destruct (middleware config x key store) as [o st1].
    rewrite IH. by destruct (run config key xs st1).
Qed.

(** C10: when the stored window for a key is unexpired and its count has
    reached [maxRequests], the admission check and the middleware leave
    the whole store as it was: neither that window's count nor its reset
    time, nor any other window, changes. *)
Theorem denied_request_leaves_store (config : RateLimitConfig) (now : Z)
    (key : string) (store : Store) (e : RateLimitEntry)
    (Hk : store !! key = Some e) (Hlive : ~ resetTime e < now)
    (Hfull : maxRequests config <= count e) :
  isAllowed now key config store = (false, store) /\
  snd (middleware config now key store) = store.
Proof.
  split.
  - exact (isAllowed_deny now key config store e Hk Hlive Hfull).
  - by rewrite (middleware_deny config now key store e Hk Hlive Hfull).
Qed.

Lemma denied_request_leaves_store_witness :
  ({[ "198.51.100.4:/api/edit" := mkEntry 10 5000 ]} : Store)
    !! "198.51.100.4:/api/edit" = Some (mkEntry 10 5000) /\
  ~ resetTime (mkEntry 10 5000) < 1000 /\
  maxRequests imageEditConfig <= count (mkEntry 10 5000) /\
  isAllowed 1000 "198.51.100.4:/api/edit" imageEditConfig
    {[ "198.51.100.4:/api/edit" := mkEntry 10 5000 ]}
  = (false, {[ "198.51.100.4:/api/edit" := mkEntry 10 5000 ]}) /\
  snd (middleware imageEditConfig 1000 "198.51.100.4:/api/edit"
         {[ "198.51.100.4:/api/edit" := mkEntry 10 5000 ]})
  = {[ "198.51.100.4:/api/edit" := mkEntry 10 5000 ]}.
Proof.
  assert (Hk : ({[ "198.51.100.4:/api/edit" := mkEntry 10 5000 ]} : Store)
                 !! "198.51.100.4:/api/edit" = Some (mkEntry 10 5000))
    by (vm_compute; reflexivity).
  assert (Hl : ~ resetTime (mkEntry 10 5000) < 1000) by (simpl; lia).
  assert (Hf : maxRequests imageEditConfig <= count (mkEntry 10 5000))
    by (simpl; lia).
  split; [exact Hk|]. split; [exact Hl|]. split; [exact Hf|].
  exact (denied_request_leaves_store imageEditConfig 1000 "198.51.100.4:/api/edit"
           _ (mkEntry 10 5000) Hk Hl Hf).
Defined.

(** C3 (as stated, refuted): a denial does not carry [resetAt - now]
    milliseconds. With a full window resetting at 5000 and a request at
    1000, the 429 reply says [retryAfter = 4], not 4000. *)
Lemma retry_after_not_milliseconds :
  ~ (forall (config : RateLimitConfig) (now : Z) (key : string) (store : Store)
            (e : RateLimitEntry),
       store !! key = Some e -> ~ resetTime e < now -> maxRequests config <= count e ->
       fst (middleware config now key store) = TooMany (resetTime e - now) (resetTime e)).
Proof.
  intros H.
  specialize (H imageEditConfig 1000 "k" {[ "k" := mkEntry 10 5000 ]} (mkEntry 10 5000)).
  assert (Hbad : fst (middleware imageEditConfig 1000 "k" {[ "k" := mkEntry 10 5000 ]})
                 = TooMany 4000 5000).
  { apply H; [vm_compute; reflexivity|simpl; lia|simpl; lia]. }
  vm_compute in Hbad. discriminate Hbad.
Qed.

(** C3 (amended): for a key and a configuration [(windowMs, maxRequests)],
    a request at [now] is admitted with a fresh window
    [{count = 1, resetTime = now + windowMs}] when no window is stored or
    the stored one has [resetTime < now]; otherwise it is admitted with
    the count incremented when [count < maxRequests]; otherwise it is
    refused with [retryAfter = ceil((resetTime - now) / 1000)] seconds
    and the store unchanged. *)
Theorem fixed_window_admission (config : RateLimitConfig) (now : Z) (key : string)
    (store : Store) :
  (no_live_window now key store ->
   exists rem rs, middleware config now key store
   = (Next rem rs, <[key := mkEntry 1 (now + windowMs config)]> store)) /\
  (forall e, store !! key = Some e -> ~ resetTime e < now ->
   count e < maxRequests config ->
   exists rem rs, middleware config now key store
   = (Next rem rs, <[key := mkEntry (count e + 1) (resetTime e)]> store)) /\
  (forall e, store !! key = Some e -> ~ resetTime e < now ->
   maxRequests config <= count e ->
   middleware config now key store
   = (TooMany (ceil_div1000 (resetTime e - now)) (resetTime e), store)).
Proof.
  split; [|split].
  - apply middleware_fresh.
  - intros e. apply middleware_increment.
  - intros e. apply middleware_deny.
Qed.

Lemma fixed_window_admission_witness :
  middleware imageEditConfig 1000 "k" {[ "k" := mkEntry 10 5000 ]}
  = (TooMany (ceil_div1000 (5000 - 1000)) 5000, {[ "k" := mkEntry 10 5000 ]}) /\
  ceil_div1000 (5000 - 1000) = 4.
Proof.
  destruct (fixed_window_admission imageEditConfig 1000 "k"
              {[ "k" := mkEntry 10 5000 ]}) as (_ & _ & H3).
  split; [|reflexivity].
  apply (H3 (mkEntry 10 5000)); [vm_compute; reflexivity|simpl; lia|simpl; lia].
Defined.

(** C9 (as stated, refuted): the search limiter is configured with 50
    requests per 5 minutes, so an 11th search from one caller at the same
    instant is let through. *)
Lemma search_eleventh_request_admitted :
  is_next (nth 10 (fst (run searchConfig "203.0.113.7:/api/templates/search"
                          (repeat 0 11) ∅)) (TooMany 0 0)) = true.
Proof. vm_compute. reflexivity. Qed.

(** C9 (amended): per key (caller address and path), the search limiter
    admits 50 requests in one 5-minute window and refuses the 51st: when
    no live window exists at the first request [t0] and the next 50
    requests come no later than [t0 + 300000], the first 50 pass, the 51st
    (at [t]) is refused with [retryAfter = ceil((t0 + 300000 - t) / 1000)]
    seconds, which is positive when [t < t0 + 300000]. *)
Theorem search_window_limit (key : string) (store : Store) (t0 t : Z) (ts : list Z)
    (Hfresh : no_live_window t0 key store)
    (Hlen : length ts = 49%nat)
    (Hin : Forall (fun x => x <= t0 + 300000) (ts ++ [t])) :
  map is_next (fst (run searchConfig key (t0 :: ts ++ [t]) store))
    = repeat true 50 ++ [false] /\
  nth 50 (fst (run searchConfig key (t0 :: ts ++ [t]) store)) (Next 0 0)
    = TooMany (ceil_div1000 (t0 + 300000 - t)) (t0 + 300000) /\
  (t < t0 + 300000 -> 0 < ceil_div1000 (t0 + 300000 - t)).
Proof.
  apply Forall_app in Hin as [Hts Ht]. apply Forall_cons in Ht as [Ht _].
  destruct (middleware_fresh searchConfig t0 key store Hfresh) as (rem & rs & Hm).
  simpl. rewrite Hm. rewrite run_app.
  set (st1 := <[key := mkEntry 1 (t0 + windowMs searchConfig)]> store).
  destruct (run_in_window searchConfig key ts st1 1 (t0 + 300000)) as [H1 H2].
  { unfold st1. by rewrite lookup_insert_eq. }
  { exact Hts. }
  { rewrite Hlen. simpl. lia. }
  rewrite Hlen in H1, H2.
  destruct (run searchConfig key ts st1) as [os st2] eqn:Er. simpl in H1, H2 |- *.
  rewrite (middleware_deny searchConfig t key st2 (mkEntry 50 (t0 + 300000)));
    [|exact H2|simpl; lia|simpl; lia].
  simpl. split; [|split].
  - rewrite map_app, H1. reflexivity.
  - assert (Hos : length os = 49%nat).
    { rewrite <- (length_map is_next os), H1. reflexivity. }
    rewrite app_nth2 by lia. rewrite Hos. reflexivity.
  - intros Hlt. apply ceil_div1000_pos. lia.
Qed.

Lemma search_window_limit_witness :
  map is_next (fst (run searchConfig "203.0.113.7:/api/templates/search"
                      (0 :: repeat 1000 49 ++ [2000]) ∅))
    = repeat true 50 ++ [false] /\
  nth 50 (fst (run searchConfig "203.0.113.7:/api/templates/search"
                 (0 :: repeat 1000 49 ++ [2000]) ∅)) (Next 0 0)
    = TooMany (ceil_div1000 (0 + 300000 - 2000)) (0 + 300000) /\
  (2000 < 0 + 300000 -> 0 < ceil_div1000 (0 + 300000 - 2000)).
Proof.
  apply search_window_limit.
  - vm_compute. exact I.
  - reflexivity.
  - repeat constructor; vm_compute; discriminate.
Defined.

End RateLimiterFacts.

(** ** Further properties of the rate limiter *)
Module RateLimiterMore.
Import RateLimiter RateLimiterFacts.

Lemma isAllowed_frame (now : Z) (key k : string) (config : RateLimitConfig)
    (store : Store) :
  k <> key -> snd (isAllowed now key config store) !! k = store !! k.
Proof.
  intros Hne. unfold isAllowed.
  destruct (store !! key) as [e|]; [|simpl; by rewrite lookup_insert_ne].
  destruct (resetTime e <? now); [simpl; by rewrite lookup_insert_ne|].
  destruct (maxRequests config <=? count e); [done|].
  simpl. by rewrite lookup_insert_ne.
Qed.

Lemma middleware_store (config : RateLimitConfig) (now : Z) (key : string)
    (store : Store) :
  snd (middleware config now key store) = snd (isAllowed now key config store).
Proof.
  unfold middleware. destruct (isAllowed now key config store) as [[|] st]; done.
Qed.

Lemma cleanup_lookup (t : Z) (store : Store) (k : string) :
  cleanup t store !! k =
  match store !! k with
  | Some e => if resetTime e <? t then None else Some e
  | None => None
  end.
Proof.
  unfold cleanup. rewrite map_lookup_filter.
  destruct (store !! k) as [e|]; simpl; [|done].
  destruct (Z.ltb_spec (resetTime e) t); simpl.
  - rewrite option_guard_False; [done|]. simpl. lia.
  - rewrite option_guard_True; [done|]. simpl. lia.
Qed.

(** A request only ever touches its own key's window: every other
    key's entry is the same after the middleware ran. *)
Theorem middleware_other_keys_unchanged (config : RateLimitConfig) (now : Z)
    (key k : string) (store : Store) (Hne : k <> key) :
  snd (middleware config now key store) !! k = store !! k.
Proof. rewrite middleware_store. by apply isAllowed_frame. Qed.

Lemma middleware_other_keys_unchanged_witness :
  "198.51.100.4:/api/search" <> "198.51.100.4:/api/edit" /\
  snd (middleware imageEditConfig 1000 "198.51.100.4:/api/edit"
         {[ "198.51.100.4:/api/search" := mkEntry 3 9000 ]})
    !! "198.51.100.4:/api/search"
  = ({[ "198.51.100.4:/api/search" := mkEntry 3 9000 ]} : Store)
      !! "198.51.100.4:/api/search".
Proof.
  assert (Hne : "198.51.100.4:/api/search" <> "198.51.100.4:/api/edit")
    by discriminate.
  split; [exact Hne|].
  exact (middleware_other_keys_unchanged imageEditConfig 1000
           "198.51.100.4:/api/edit" "198.51.100.4:/api/search" _ Hne).
Defined.

(** With [maxRequests >= 1], the middleware keeps every stored count
    between 1 and [maxRequests]: a window never records more requests
    than the limit admits. *)
Theorem middleware_count_bound (config : RateLimitConfig) (now : Z)
    (key : string) (store : Store)
    (Hmax : 1 <= maxRequests config)
    (Hinv : map_Forall (fun _ e => 1 <= count e <= maxRequests config) store) :
  map_Forall (fun _ e => 1 <= count e <= maxRequests config)
    (snd (middleware config now key store)).
Proof.
  rewrite middleware_store. unfold isAllowed.
  destruct (store !! key) as [e|] eqn:Ek.
  - destruct (Z.ltb_spec (resetTime e) now).
    + simpl. apply map_Forall_insert_2; [simpl; lia|done].
    + destruct (Z.leb_spec (maxRequests config) (count e)); [done|].
      simpl. apply map_Forall_insert_2; [|done].
      specialize (Hinv key e Ek). simpl in *. lia.
  - simpl. apply map_Forall_insert_2; [simpl; lia|done].
Qed.

Lemma middleware_count_bound_witness :
  map_Forall (fun _ e => 1 <= count e <= maxRequests imageEditConfig)
    (snd (middleware imageEditConfig 1000 "k" {[ "k" := mkEntry 9 5000 ]})).
Proof.
  apply middleware_count_bound; [simpl; lia|].
  apply map_Forall_singleton. simpl. lia.
Defined.

(** An admitted request is told, in X-RateLimit-Remaining and
    X-RateLimit-Reset, how many requests its window still admits after
    counting this one, and when that window ends (never before [now]),
    provided [windowMs >= 0]. *)
Theorem admitted_headers (config : RateLimitConfig) (now : Z) (key : string)
    (store : Store) (rem rs : Z)
    (Hw : 0 <= windowMs config)
    (Hok : fst (middleware config now key store) = Next rem rs) :
  exists e, snd (middleware config now key store) !! key = Some e /\
    rem = Z.max 0 (maxRequests config - count e) /\
    rs = resetTime e /\ now <= resetTime e.
Proof.
  revert Hok. unfold middleware, isAllowed.
  destruct (store !! key) as [e|] eqn:Ek.
  - destruct (Z.ltb_spec (resetTime e) now).
    + simpl. unfold getRemainingRequests, getResetTime.
      rewrite lookup_insert_eq. simpl.
      destruct (Z.ltb_spec (now + windowMs config) now); [lia|].
      intros Hn. injection Hn as <- <-. eexists. split; [done|]. simpl. lia.
    + destruct (Z.leb_spec (maxRequests config) (count e)); [simpl; discriminate|].
      simpl. unfold getRemainingRequests, getResetTime.
      rewrite lookup_insert_eq. simpl.
      destruct (Z.ltb_spec (resetTime e) now); [lia|].
      intros Hn. injection Hn as <- <-. eexists. split; [done|]. simpl. lia.
  - simpl. unfold getRemainingRequests, getResetTime.
    rewrite lookup_insert_eq. simpl.
    destruct (Z.ltb_spec (now + windowMs config) now); [lia|].
    intros Hn. injection Hn as <- <-. eexists. split; [done|]. simpl. lia.
Qed.

Lemma admitted_headers_witness :
  exists e, snd (middleware imageEditConfig 1000 "k" ∅) !! "k" = Some e /\
    9 = Z.max 0 (maxRequests imageEditConfig - count e) /\
    3601000 = resetTime e /\ 1000 <= resetTime e.
Proof.
  apply (admitted_headers imageEditConfig 1000 "k" ∅ 9 3601000);
    [simpl; lia|vm_compute; reflexivity].
Defined.

(** Edge of a window: a full window still refuses a request made exactly
    at its [resetTime], with [retryAfter = 0]; the request one millisecond
    later opens a fresh window. *)
Theorem full_window_boundary (config : RateLimitConfig) (key : string)
    (store : Store) (e : RateLimitEntry)
    (Hk : store !! key = Some e) (Hfull : maxRequests config <= count e) :
  middleware config (resetTime e) key store = (TooMany 0 (resetTime e), store) /\
  snd (middleware config (resetTime e + 1) key store)
  = <[key := mkEntry 1 (resetTime e + 1 + windowMs config)]> store.
Proof.
  split.
  - rewrite (middleware_deny config (resetTime e) key store e Hk); [|lia|done].
    by replace (resetTime e - resetTime e) with 0 by lia.
  - destruct (middleware_fresh config (resetTime e + 1) key store) as (rem & rs & ->);
      [|done].
    unfold no_live_window. rewrite Hk. lia.
Qed.

Lemma full_window_boundary_witness :
  middleware imageEditConfig 5000 "k" {[ "k" := mkEntry 10 5000 ]}
  = (TooMany 0 5000, {[ "k" := mkEntry 10 5000 ]}) /\
  snd (middleware imageEditConfig (5000 + 1) "k" {[ "k" := mkEntry 10 5000 ]})
  = <[ "k" := mkEntry 1 (5000 + 1 + windowMs imageEditConfig)]>
      {[ "k" := mkEntry 10 5000 ]}.
Proof.
  apply (full_window_boundary imageEditConfig "k" _ (mkEntry 10 5000));
    [vm_compute; reflexivity|simpl; lia].
Defined.

(** The periodic [cleanup] is invisible to requests: after a cleanup at
    [t], a request at any [now >= t] gets the same answer and leaves the
    same window for its key as without the cleanup. *)
Theorem cleanup_invisible (config : RateLimitConfig) (t now : Z) (key : string)
    (store : Store) (Ht : t <= now) :
  fst (middleware config now key (cleanup t store))
    = fst (middleware config now key store) /\
  snd (middleware config now key (cleanup t store)) !! key
    = snd (middleware config now key store) !! key.
Proof.
  rewrite !middleware_store. unfold middleware, isAllowed.
  rewrite cleanup_lookup.
  destruct (store !! key) as [e|] eqn:Ek.
  - destruct (Z.ltb_spec (resetTime e) t).
    + destruct (Z.ltb_spec (resetTime e) now); [|lia].
      simpl. unfold getRemainingRequests, getResetTime.
      rewrite !lookup_insert_eq. done.
    + destruct (Z.ltb_spec (resetTime e) now).
      * simpl. unfold getRemainingRequests, getResetTime.
        rewrite !lookup_insert_eq. done.
      * destruct (Z.leb_spec (maxRequests config) (count e)).
        -- simpl. unfold getResetTime. rewrite cleanup_lookup, Ek.
           destruct (Z.ltb_spec (resetTime e) t); [lia|]. done.
        -- simpl. unfold getRemainingRequests, getResetTime.
           rewrite !lookup_insert_eq. done.
  - simpl. unfold getRemainingRequests, getResetTime.
    rewrite !lookup_insert_eq. done.
Qed.

Lemma cleanup_invisible_witness :
  fst (middleware imageEditConfig 7000 "k" (cleanup 6000 {[ "k" := mkEntry 10 5000 ]}))
    = fst (middleware imageEditConfig 7000 "k" {[ "k" := mkEntry 10 5000 ]}) /\
  snd (middleware imageEditConfig 7000 "k" (cleanup 6000 {[ "k" := mkEntry 10 5000 ]}))
    !! "k"
    = snd (middleware imageEditConfig 7000 "k" {[ "k" := mkEntry 10 5000 ]}) !! "k".
Proof. apply cleanup_invisible. lia. Defined.

End RateLimiterMore.

(** ** Content cache *)
Module CacheFacts.
Import Cache.

Section Entries.
Context {V : Type}.
Implicit Types (c : Cache V) (e : CacheEntry V).

Lemma Forall_map_set (P : string * CacheEntry V -> Prop) (k : string) e c :
  P (k, e) -> Forall P c -> Forall P (map_set k e c).
Proof.
  intros Hk Hc. induction Hc as [|[k' e'] rest Hp Hrest IH]; simpl.
  - by constructor.
  - destruct (String.eqb k' k); constructor; done.
Qed.

Lemma Forall_map_delete (P : string * CacheEntry V -> Prop) (k : string) c :
  Forall P c -> Forall P (map_delete k c).
Proof.
  intros Hc. induction Hc as [|[k' e'] rest Hp Hrest IH]; simpl; [done|].
  destruct (String.eqb k' k); [done|by constructor].
Qed.

Lemma Forall_filter_keep (P : string * CacheEntry V -> Prop)
    (f : string * CacheEntry V -> bool) c :
  Forall P c -> Forall P (List.filter f c).
Proof.
  intros Hc. induction Hc as [|p rest Hp Hrest IH]; simpl; [done|].
  destruct (f p); [by constructor|done].
Qed.

Lemma Forall_evictOldest (P : string * CacheEntry V -> Prop) (now : Z) c :
  Forall P c -> Forall P (evictOldest now c).
Proof.
  intros Hc. unfold evictOldest.
  destruct (String.eqb _ _); [done|by apply Forall_map_delete].
Qed.

Lemma map_get_Forall (P : string * CacheEntry V -> Prop) (k : string) c e :
  Forall P c -> map_get k c = Some e -> P (k, e).
Proof.
  intros Hc. induction Hc as [|[k' e'] rest Hp Hrest IH]; simpl; [done|].
  destruct (String.eqb_spec k' k) as [->|]; [|done].
  by intros [= <-].
Qed.

Lemma in_map_delete (k x : string) c :
  In x (map fst (map_delete k c)) -> In x (map fst c).
Proof.
  induction c as [|[k' e'] rest IH]; simpl; [done|].
  destruct (String.eqb k' k); simpl; [auto|]. intros [H|H]; auto.
Qed.

Lemma NoDup_map_delete (k : string) c :
  NoDup (map fst c) -> NoDup (map fst (map_delete k c)).
Proof.
  induction c as [|[k' e'] rest IH]; simpl; intros Hn; [done|].
  inversion Hn as [|? ? Hnin Hrest]; subst.
  destruct (String.eqb k' k); [done|]. simpl. constructor; [|auto].
  intros Hin. apply Hnin. apply list_elem_of_In.
  apply (in_map_delete k). by apply list_elem_of_In.
Qed.

Lemma NoDup_evictOldest (now : Z) c :
  NoDup (map fst c) -> NoDup (map fst (evictOldest now c)).
Proof.
  intros Hn. unfold evictOldest.
  destruct (String.eqb _ _); [done|by apply NoDup_map_delete].
Qed.

(** On a map with distinct keys, after [map_set key e] every entry under
    [key] is [e]. *)
Lemma map_set_only (key : string) e c :
  NoDup (map fst c) ->
  Forall (fun p => fst p = key -> snd p = e) (map_set key e c).
Proof.
  induction c as [|[k' e'] rest IH]; simpl; intros Hn.
  - constructor; [done|constructor].
  - inversion Hn as [|? ? Hnin Hrest]; subst.
    destruct (String.eqb_spec k' key) as [->|Hne].
    + constructor; [done|]. apply Forall_forall. intros [k'' e''] Hin Heq.
      simpl in Heq; subst. exfalso. apply Hnin. apply list_elem_of_In.
      apply list_elem_of_In in Hin. apply (in_map fst) in Hin. exact Hin.
    + constructor; [|auto]. simpl. intros Heq. congruence.
Qed.

(** The entries stored under [key] hold the value [v] and expire at [x]. *)
Definition holds (key : string) (v : V) (x : Z) c : Prop :=
  Forall (fun p => fst p = key -> data (snd p) = v /\ expiresAt (snd p) = x) c.

Lemma holds_step (config : CacheConfig) (key : string) (v : V) (x : Z)
    (op : CacheOp V) c :
  spares key op = true -> holds key v x c -> holds key v x (step config op c).
Proof.
  unfold holds. intros Hsp Hc. destruct op as [now k d ttl|now k|now k|k|now]; simpl in *.
  - unfold set. apply Forall_map_set.
    + simpl. intros ->. by rewrite String.eqb_refl in Hsp.
    + destruct (_ <=? _); [by apply Forall_evictOldest|done].
  - unfold get. destruct (map_get k c) as [e|] eqn:Eg; simpl; [|done].
    destruct (expiresAt e <? now); simpl; [by apply Forall_map_delete|].
    apply Forall_map_set; [|done]. simpl. intros ->.
    exact (map_get_Forall _ key c e Hc Eg eq_refl).
  - unfold has. destruct (map_get k c) as [e|]; simpl; [|done].
    destruct (expiresAt e <? now); simpl; [by apply Forall_map_delete|done].
  - by apply Forall_map_delete.
  - by apply Forall_filter_keep.
Qed.

Lemma holds_exec (config : CacheConfig) (key : string) (v : V) (x : Z)
    (ops : list (CacheOp V)) c :
  forallb (spares key) ops = true -> holds key v x c ->
  holds key v x (exec config ops c).
Proof.
  revert c. induction ops as [|op ops IH]; intros c Hsp Hc; simpl in *; [done|].
  apply andb_prop in Hsp as [H1 H2]. apply IH; [done|]. by apply holds_step.
Qed.

Lemma holds_set (config : CacheConfig) (now : Z) (key : string) (v : V)
    (ttl : option Z) c :
  NoDup (map fst c) ->
  holds key v (now + effective_ttl config ttl) (set config now key v ttl c).
Proof.
  intros Hn. unfold holds, set.
  assert (Hn1 : NoDup (map fst (if maxSize config <=? Z.of_nat (length c)
                                  then evictOldest now c else c))).
  { destruct (_ <=? _); [by apply NoDup_evictOldest|done]. }
  eapply Forall_impl; [apply (map_set_only key _ _ Hn1)|].
  intros p Hp Heq. by rewrite (Hp Heq).
Qed.

(** C5: a value stored with [set(key, v, ttl)], [ttl > 0], at [t0] and
    neither overwritten nor deleted by the later operations [ops] is
    returned by [get] at [t0 + ttl - eps] as long as it is still stored
    (no capacity eviction), and [get] at [t0 + ttl + eps] returns [null],
    for every [eps > 0]. The cache [set] starts from has distinct keys,
    as every [Map] has. *)
Theorem set_then_get_ttl (config : CacheConfig) (key : string) (v : V)
    (ttl t0 eps : Z) (c : Cache V) (ops : list (CacheOp V))
    (Httl : 0 < ttl) (Heps : 0 < eps) (Hwf : NoDup (map fst c))
    (Hsp : forallb (spares key) ops = true) :
  let c' := exec config ops (set config t0 key v (Some ttl) c) in
  (map_get key c' <> None -> fst (get (t0 + ttl - eps) key c') = Some v) /\
  fst (get (t0 + ttl + eps) key c') = None.
Proof.
  intros c'.
  assert (Hh : holds key v (t0 + ttl) c').
  { unfold c'. apply holds_exec; [done|].
    pose proof (holds_set config t0 key v (Some ttl) c Hwf) as H.
    unfold effective_ttl in H. destruct (Z.eqb_spec ttl 0); [lia|done]. }
  split.
  - intros Hin. destruct (map_get key c') as [e|] eqn:Eg; [|done].
    destruct (map_get_Forall _ key c' e Hh Eg eq_refl) as [Hd Hx]. simpl in Hd, Hx.
    unfold get. rewrite Eg.
    destruct (Z.ltb_spec (expiresAt e) (t0 + ttl - eps)); [lia|].
    simpl. by rewrite Hd.
  - unfold get. destruct (map_get key c') as [e|] eqn:Eg; [|done].
    destruct (map_get_Forall _ key c' e Hh Eg eq_refl) as [Hd Hx]. simpl in Hd, Hx.
    destruct (Z.ltb_spec (expiresAt e) (t0 + ttl + eps)); [done|lia].
Qed.

(** [evictOldest] removes nothing when no entry was accessed strictly
    before the current instant. *)
Lemma evictOldest_keeps_recent (now : Z) c :
  Forall (fun p => now <= lastAccessed (snd p)) c -> evictOldest now c = c.
Proof.
  intros Hc. unfold evictOldest, evict_scan.
  assert (Hscan : forall l, Forall (fun p => now <= lastAccessed (snd p)) l ->
            fold_left (fun acc (p : string * CacheEntry V) =>
                         if lastAccessed (snd p) <? snd acc
                         then (fst p, lastAccessed (snd p)) else acc)
                      l (""%string, now) = (""%string, now)).
  { induction l as [|p l IH]; intros Hl; simpl; [done|].
    inversion Hl as [|? ? Hp Hl']; subst.
    destruct (Z.ltb_spec (lastAccessed (snd p)) now); [lia|]. by apply IH. }
  by rewrite (Hscan c Hc).
Qed.

End Entries.

Lemma set_then_get_ttl_witness :
  let ops := [OpSet 1000 "category:portrait" 7 None; OpGet 2000 "template:t1";
              OpCleanup 3000] in
  let c' := exec cacheServiceConfig ops
              (set cacheServiceConfig 500 "template:t1" 42 (Some 60000) []) in
  (map_get "template:t1" c' <> None ->
   fst (get (500 + 60000 - 1) "template:t1" c') = Some 42) /\
  fst (get (500 + 60000 + 1) "template:t1" c') = None.
Proof.
  apply (@set_then_get_ttl Z cacheServiceConfig "template:t1" 42 60000 500 1 []).
  - lia.
  - lia.
  - constructor.
  - reflexivity.
Defined.

(** C4: with capacity 2 and three [set] calls made within the same
    millisecond, [evictOldest] finds no entry accessed strictly before
    [Date.now()], so nothing is evicted and the cache ends with three
    entries, the least recently accessed ["a"] among them. *)
Theorem set_at_capacity_same_instant_evicts_nothing :
  let cfg := mkCacheConfig 600000 2 120000 in
  map fst (set cfg 5 "c" 3 None (set cfg 5 "b" 2 None (set cfg 5 "a" 1 None [])))
  = ["a"; "b"; "c"]%string.
Proof. vm_compute. reflexivity. Qed.

End CacheFacts.

(** ** Further properties of the content cache *)
Module CacheMore.
Import Cache CacheFacts.

Section Entries.
Context {V : Type}.
Implicit Types (c : Cache V) (e : CacheEntry V).




Lemma map_get_map_set_eq (k : string) e c : map_get k (map_set k e c) = Some e.
Proof.
  induction c as [|[k' e'] rest IH]; simpl; [by rewrite String.eqb_refl|].
  destruct (String.eqb_spec k' k) as [->|Hne]; simpl.
  - by rewrite String.eqb_refl.
  - destruct (String.eqb_spec k' k); [congruence|done].
Qed.

Lemma map_get_not_in (k : string) c :
  ~ In k (map fst c) -> map_get k c = None.
Proof.
  induction c as [|[k' e'] rest IH]; simpl; [done|]. intros Hn.
  destruct (String.eqb_spec k' k); [tauto|]. auto.
Qed.

Lemma map_get_map_delete (k k' : string) c :
  NoDup (map fst c) ->
  map_get k' (map_delete k c) = if String.eqb k' k then None else map_get k' c.
Proof.
  induction c as [|[k0 e0] rest IH]; simpl; intros Hn.
  - by destruct (String.eqb k' k).
  - inversion Hn as [|? ? Hnin Hrest]; subst.
    destruct (String.eqb_spec k0 k) as [->|Hne].
    + destruct (String.eqb_spec k' k) as [->|Hne'].
      * apply map_get_not_in. intros Hin. apply Hnin. by apply list_elem_of_In.
      * destruct (String.eqb_spec k k'); [congruence|done].
    + simpl. rewrite IH by done.
      destruct (String.eqb_spec k' k) as [->|]; [|done].
      destruct (String.eqb_spec k0 k); [congruence|done].
Qed.


(** [has] answers as [get] would, but is not an access: when the key is
    live it leaves the cache (access count, last access) untouched, and
    when it is expired both remove it. *)
Theorem has_agrees_with_get (now : Z) (key : string) c :
  fst (has now key c) =
    match fst (get now key c) with Some _ => true | None => false end /\
  (fst (has now key c) = true -> snd (has now key c) = c) /\
  (fst (has now key c) = false -> snd (has now key c) = snd (get now key c)).
Proof.
  unfold has, get. destruct (map_get key c) as [e|]; simpl; [|done].
  destruct (expiresAt e <? now); simpl; done.
Qed.

(** [delete(key)] removes the key and only it: afterwards [get] of the
    key returns [null], and every other key reads as before. *)
Theorem delete_then_get (now : Z) (key k : string) c
    (Hn : NoDup (map fst c)) :
  fst (get now key (map_delete key c)) = None /\
  (k <> key -> fst (get now k (map_delete key c)) = fst (get now k c)).
Proof.
  unfold get. split.
  - rewrite map_get_map_delete by done. by rewrite String.eqb_refl.
  - intros Hne. rewrite map_get_map_delete by done.
    destruct (String.eqb_spec k key); [congruence|].
    destruct (map_get k c) as [e|]; [|done]. by destruct (expiresAt e <? now).
Qed.

(** [getOrSet] followed by [get] of the same key at the same instant
    returns what [getOrSet] returned, whether it was a hit or the fetched
    value (for a non-negative effective TTL). *)
Theorem getOrSet_then_get (config : CacheConfig) (now : Z) (key : string)
    (fetched : V) (ttl : option Z) c
    (Httl : 0 <= effective_ttl config ttl) :
  fst (get now key (snd (getOrSet config now key fetched ttl c)))
  = Some (fst (fst (getOrSet config now key fetched ttl c))).
Proof.
  unfold getOrSet. destruct (get now key c) as [[v|] c1] eqn:Eg; simpl.
  - revert Eg. unfold get. destruct (map_get key c) as [e|]; [|discriminate].
    destruct (Z.ltb_spec (expiresAt e) now); [discriminate|].
    intros [= <- <-]. rewrite map_get_map_set_eq. simpl.
    destruct (Z.ltb_spec (expiresAt e) now); [lia|done].
  - unfold get at 1, set. rewrite map_get_map_set_eq. simpl.
    destruct (Z.ltb_spec (now + effective_ttl config ttl) now); [lia|done].
Qed.

Lemma scan_from (now : Z) (m : Z) l (acc : string * Z) :
  Forall (fun p => m <= lastAccessed (snd p)) l -> snd acc = m ->
  fold_left (fun acc (p : string * CacheEntry V) =>
               if lastAccessed (snd p) <? snd acc
               then (fst p, lastAccessed (snd p)) else acc) l acc = acc.
Proof.
  revert acc. induction l as [|p l IH]; intros acc Hl Hm; simpl; [done|].
  inversion Hl as [|? ? Hp Hl']; subst.
  destruct (Z.ltb_spec (lastAccessed (snd p)) (snd acc)); [lia|]. by apply IH.
Qed.

Lemma scan_above (m : Z) l (acc : string * Z) :
  Forall (fun p => m < lastAccessed (snd p)) l -> m < snd acc ->
  m < snd (fold_left (fun acc (p : string * CacheEntry V) =>
               if lastAccessed (snd p) <? snd acc
               then (fst p, lastAccessed (snd p)) else acc) l acc).
Proof.
  revert acc. induction l as [|p l IH]; intros acc Hl Hm; simpl; [done|].
  inversion Hl as [|? ? Hp Hl']; subst. apply IH; [done|].
  destruct (lastAccessed (snd p) <? snd acc); simpl; lia.
Qed.

Lemma map_delete_middle (k0 : string) e0 (pre post : Cache V) :
  ~ In k0 (map fst pre) ->
  map_delete k0 (pre ++ (k0, e0) :: post) = pre ++ post.
Proof.
  induction pre as [|[k e] pre IH]; simpl; intros Hn.
  - by rewrite String.eqb_refl.
  - destruct (String.eqb_spec k k0); [tauto|]. f_equal. auto.
Qed.

(** [evictOldest] evicts the least recently accessed entry: when [k0] is
    the first entry with the smallest [lastAccessed], that time is before
    the current instant and [k0] is not the empty string, exactly that
    entry is removed and the others keep their order. *)
Theorem evictOldest_removes_lru (now : Z) (pre post : Cache V) (k0 : string) e0
    (Hk0 : k0 <> ""%string) (Hold : lastAccessed e0 < now)
    (Hpre : Forall (fun p => lastAccessed e0 < lastAccessed (snd p)) pre)
    (Hpost : Forall (fun p => lastAccessed e0 <= lastAccessed (snd p)) post)
    (Hn : NoDup (map fst (pre ++ (k0, e0) :: post))) :
  evictOldest now (pre ++ (k0, e0) :: post) = pre ++ post.
Proof.
  unfold evictOldest, evict_scan. rewrite fold_left_app. simpl.
  pose proof (scan_above (lastAccessed e0) pre (""%string, now) Hpre Hold) as Ha.
  destruct (fold_left _ pre (""%string, now)) as [ka ta] eqn:Ef. simpl in Ha |- *.
  rewrite (proj2 (Z.ltb_lt _ _) Ha).
  rewrite (scan_from now (lastAccessed e0) post (k0, lastAccessed e0) Hpost eq_refl).
  simpl. destruct (String.eqb_spec k0 ""); [congruence|].
  apply map_delete_middle. rewrite map_app in Hn. simpl in Hn.
  apply NoDup_app in Hn as (_ & Hd & _). intros Hin.
  apply (Hd k0); [by apply list_elem_of_In|]. set_solver.
Qed.

Lemma map_get_cleanup (t : Z) (k : string) c :
  NoDup (map fst c) ->
  map_get k (cleanup t c) =
  match map_get k c with
  | Some e => if expiresAt e <? t then None else Some e
  | None => None
  end.
Proof.
  unfold cleanup. induction c as [|[k' e'] rest IH]; simpl; intros Hn; [done|].
  inversion Hn as [|? ? Hnin Hrest]; subst.
  destruct (String.eqb_spec k' k) as [->|Hne].
  - destruct (expiresAt e' <? t); simpl.
    + apply map_get_not_in. intros Hin. apply Hnin. apply list_elem_of_In.
      apply in_map_iff in Hin as [[k'' e''] [Heq Hin]]. simpl in Heq; subst.
      apply filter_In in Hin as [Hin _]. by apply (in_map fst) in Hin.
    + by rewrite String.eqb_refl.
  - destruct (expiresAt e' <? t); simpl; [auto|].
    destruct (String.eqb_spec k' k); [congruence|auto].
Qed.

(** The periodic cleanup is invisible to readers: after a cleanup at
    [t], [get] at any [now >= t] returns what it would have returned
    without the cleanup. *)
Theorem cleanup_invisible_to_get (t now : Z) (key : string) c
    (Ht : t <= now) (Hn : NoDup (map fst c)) :
  fst (get now key (cleanup t c)) = fst (get now key c).
Proof.
  unfold get. rewrite map_get_cleanup by done.
  destruct (map_get key c) as [e|]; [|done].
  destruct (Z.ltb_spec (expiresAt e) t); simpl.
  - destruct (Z.ltb_spec (expiresAt e) now); [done|lia].
  - destruct (expiresAt e <? now); done.
Qed.

End Entries.

(** [getStats()] never returns: it calls [calculateHitRate()], which calls
    [getStats()] again, so at every stack depth both end in the stack
    overflow. *)
Theorem getStats_never_returns {V : Type} (config : CacheConfig) (now : Z)
    (c : Cache V) (fuel : nat) :
  getStats fuel config now c = None /\ calculateHitRate fuel config now c = None.
Proof.
  induction fuel as [|n [IH1 IH2]]; simpl; [done|].
  by rewrite IH1, IH2.
Qed.


Lemma delete_then_get_witness :
  fst (get 0 "a" (map_delete "a" [("a", mkCacheEntry 1 10 0 0 0); ("b", mkCacheEntry 2 10 0 0 0)]))
    = None /\
  ("b" <> "a" ->
   fst (get 0 "b" (map_delete "a" [("a", mkCacheEntry 1 10 0 0 0); ("b", mkCacheEntry 2 10 0 0 0)]))
   = fst (get 0 "b" [("a", mkCacheEntry 1 10 0 0 0); ("b", mkCacheEntry 2 10 0 0 0)])).
Proof.
  apply (@delete_then_get Z). vm_compute. repeat constructor; set_solver.
Defined.

Lemma getOrSet_then_get_witness :
  fst (get 0 "a" (snd (getOrSet cacheServiceConfig 0 "a" 5 None ([] : Cache Z))))
  = Some (fst (fst (getOrSet cacheServiceConfig 0 "a" 5 None ([] : Cache Z)))).
Proof. apply getOrSet_then_get. simpl. lia. Defined.

Lemma evictOldest_removes_lru_witness :
  evictOldest 100 ([("a", mkCacheEntry 1 999 0 0 50)] ++
                   ("b", mkCacheEntry 2 999 0 0 10) :: [("c", mkCacheEntry 3 999 0 0 10)])
  = [("a", mkCacheEntry 1 999 0 0 50)] ++ [("c", mkCacheEntry 3 999 0 0 10)].
Proof.
  apply (@evictOldest_removes_lru Z).
  - discriminate.
  - simpl. lia.
  - repeat constructor; simpl; lia.
  - repeat constructor; simpl; lia.
  - vm_compute. repeat constructor; set_solver.
Defined.

Lemma cleanup_invisible_to_get_witness :
  fst (get 300 "a" (cleanup 200 [("a", mkCacheEntry 1 250 0 0 0); ("b", mkCacheEntry 2 100 0 0 0)]))
  = fst (get 300 "a" [("a", mkCacheEntry 1 250 0 0 0); ("b", mkCacheEntry 2 100 0 0 0)]).
Proof.
  apply (@cleanup_invisible_to_get Z); [lia|]. vm_compute. repeat constructor; set_solver.
Defined.

Lemma has_agrees_with_get_witness :
  let c := [("a", mkCacheEntry 1 10 0 0 0); ("b", mkCacheEntry 2 500 0 0 0)] in
  fst (has 100 "b" c) =
    match fst (get 100 "b" c) with Some _ => true | None => false end /\
  (fst (has 100 "b" c) = true -> snd (has 100 "b" c) = c) /\
  (fst (has 100 "b" c) = false -> snd (has 100 "b" c) = snd (get 100 "b" c)).
Proof. cbv zeta. apply (@has_agrees_with_get Z). Defined.

End CacheMore.

(** ** Session registry *)
Module SessionFacts.
Import Sessions.

(** [updateSessionActivity] refreshes [lastActivity] whenever it answers
    [true]. *)
Lemma updateSessionActivity_refreshes (now : Z) (sid : string) (st : Sessions) :
  fst (updateSessionActivity now sid st) = true ->
  exists s, st !! sid = Some s /\
            snd (updateSessionActivity now sid st) = <[sid := touched now s]> st /\
            lastActivity (touched now s) = now.
Proof.
  unfold updateSessionActivity. destruct (st !! sid) as [s|]; simpl; [|done].
  destruct (isActive s); simpl; [|done]. intros _. by exists s.
Qed.

(** C6: a session idle for longer than [sessionTimeout] (24 hours) and
    not yet swept is absent for [getSession], yet
    [updateSessionActivity] answers [true] for it (and refreshes it). *)
Theorem touch_accepts_idle_session :
  let s := mkSession "s1" None 0 0 true in
  let st : Sessions := {[ "s1" := s ]} in
  getSession defaultSessionTimeout (defaultSessionTimeout + 1) "s1" st
    = (None, delete "s1" st) /\
  updateSessionActivity (defaultSessionTimeout + 1) "s1" st
    = (true, <[ "s1" := touched (defaultSessionTimeout + 1) s ]> st).
Proof. split; vm_compute; reflexivity. Qed.

End SessionFacts.

(** ** Further properties of the session service *)
Module SessionMore.
Import Sessions.

Lemma length_filter_split {A : Type} (f : A -> bool) (l : list A) :
  (length (List.filter f l) + length (List.filter (fun x => negb (f x)) l))%nat
  = length l.
Proof.
  induction l as [|x l IH]; simpl; [done|].
  destruct (f x); simpl; lia.
Qed.

Lemma length_filter_le {A : Type} (f : A -> bool) (l : list A) :
  (length (List.filter f l) <= length l)%nat.
Proof. pose proof (length_filter_split f l). lia. Qed.

Lemma cleanupExpiredSessions_lookup (T t : Z) (st : Sessions) (sid : string) :
  cleanupExpiredSessions T t st !! sid =
  match st !! sid with
  | Some s => if T <? t - lastActivity s then None else Some s
  | None => None
  end.
Proof.
  unfold cleanupExpiredSessions. rewrite map_lookup_filter.
  destruct (st !! sid) as [s|]; simpl; [|done].
  destruct (Z.ltb_spec T (t - lastActivity s)); simpl.
  - rewrite option_guard_False; [done|]. simpl. lia.
  - rewrite option_guard_True; [done|]. simpl. lia.
Qed.

(** A session created at [now] (with no user data) is found by
    [getSession] at any [t] with [t - now <= sessionTimeout], refreshed to
    [t], and is gone at any later [t]. *)
Theorem created_session_lifetime (T now t : Z) (sid : string) (st : Sessions) :
  (t - now <= T ->
   exists s, fst (getSession T t sid (snd (createSession sid now st))) = Some s /\
             sessionId s = sid /\ lastActivity s = t) /\
  (T < t - now -> fst (getSession T t sid (snd (createSession sid now st))) = None).
Proof.
  unfold getSession, createSession. simpl. rewrite lookup_insert_eq. simpl.
  split; intros H.
  - destruct (Z.ltb_spec T (t - now)); [lia|]. simpl. by eexists.
  - destruct (Z.ltb_spec T (t - now)); [done|lia].
Qed.

Lemma created_session_lifetime_witness :
  (1000 - 0 <= defaultSessionTimeout ->
   exists s, fst (getSession defaultSessionTimeout 1000 "s1"
                    (snd (createSession "s1" 0 ∅))) = Some s /\
             sessionId s = "s1" /\ lastActivity s = 1000) /\
  (defaultSessionTimeout < 1000 - 0 ->
   fst (getSession defaultSessionTimeout 1000 "s1" (snd (createSession "s1" 0 ∅)))
   = None).
Proof. apply created_session_lifetime. Defined.

(** Reading a session extends its life: when [getSession] finds it at
    [t], a [getSession] at any [t'] with [t' - t <= sessionTimeout] finds
    it again. *)
Theorem getSession_extends_life (T t t' : Z) (sid : string) (st : Sessions)
    (s : SessionData)
    (Hfound : fst (getSession T t sid st) = Some s)
    (Hwithin : t' - t <= T) :
  exists s', fst (getSession T t' sid (snd (getSession T t sid st))) = Some s' /\
             lastActivity s' = t'.
Proof.
  revert Hfound. destruct (getSession T t sid st) as [r st1] eqn:Eg. simpl.
  revert Eg. unfold getSession at 1.
  destruct (st !! sid) as [s0|] eqn:E; simpl; [|intros [= <- _]; discriminate].
  destruct (isActive s0) eqn:Ea; simpl; [|intros [= <- _]; discriminate].
  destruct (Z.ltb_spec T (t - lastActivity s0)); simpl;
    [intros [= <- _]; discriminate|].
  intros [= _ <-] _. unfold getSession. rewrite lookup_insert_eq. simpl. rewrite Ea. simpl.
  destruct (Z.ltb_spec T (t' - t)); [lia|]. simpl. by eexists.
Qed.

Lemma getSession_extends_life_witness :
  exists s', fst (getSession 100 250 "s1"
                   (snd (getSession 100 150 "s1" {[ "s1" := mkSession "s1" None 0 60 true ]})))
             = Some s' /\ lastActivity s' = 250.
Proof.
  apply (getSession_extends_life 100 150 250 "s1" _ (mkSession "s1" None 0 150 true));
    [vm_compute; reflexivity|lia].
Defined.

(** After [endSession(sid)] the session is gone for good: [getSession]
    returns [null] and [updateSessionActivity] answers [false] at every
    instant; [endSession] answers [true] exactly when the session existed,
    and other sessions are untouched. *)
Theorem endSession_removes (T now : Z) (sid k : string) (st : Sessions) :
  fst (getSession T now sid (snd (endSession sid st))) = None /\
  fst (updateSessionActivity now sid (snd (endSession sid st))) = false /\
  (fst (endSession sid st) = true <-> st !! sid <> None) /\
  (k <> sid -> snd (endSession sid st) !! k = st !! k).
Proof.
  unfold endSession. destruct (st !! sid) as [s|] eqn:E; simpl.
  - unfold getSession, updateSessionActivity. rewrite lookup_delete_eq.
    split; [done|]. split; [done|]. split; [done|].
    intros Hne. by rewrite lookup_delete_ne.
  - unfold getSession, updateSessionActivity. rewrite E.
    split; [done|]. split; [done|]. split; [done|]. done.
Qed.

(** The hourly sweep keeps no session idle for longer than
    [sessionTimeout], and is invisible to readers: at any [now >= t],
    [getSession] after a sweep at [t] answers as it would without it. *)
Theorem cleanupExpiredSessions_sound (T t now : Z) (sid : string) (st : Sessions)
    (Ht : t <= now) :
  map_Forall (fun _ s => t - lastActivity s <= T) (cleanupExpiredSessions T t st) /\
  fst (getSession T now sid (cleanupExpiredSessions T t st))
    = fst (getSession T now sid st).
Proof.
  split.
  - intros k s Hk. rewrite cleanupExpiredSessions_lookup in Hk.
    destruct (st !! k) as [s0|]; [|done].
    destruct (Z.ltb_spec T (t - lastActivity s0)); [done|]. by injection Hk as <-.
  - unfold getSession. rewrite cleanupExpiredSessions_lookup.
    destruct (st !! sid) as [s|]; [|done].
    destruct (Z.ltb_spec T (t - lastActivity s)).
    + destruct (isActive s); simpl; [|done].
      destruct (Z.ltb_spec T (now - lastActivity s)); [done|lia].
    + destruct (isActive s); simpl; [|done].
      by destruct (T <? now - lastActivity s).
Qed.

Lemma cleanupExpiredSessions_sound_witness :
  map_Forall (fun _ s => 500 - lastActivity s <= 100)
    (cleanupExpiredSessions 100 500
       {[ "a" := mkSession "a" None 0 450 true; "b" := mkSession "b" None 0 10 true ]}) /\
  fst (getSession 100 600 "b"
         (cleanupExpiredSessions 100 500
            {[ "a" := mkSession "a" None 0 450 true; "b" := mkSession "b" None 0 10 true ]}))
  = fst (getSession 100 600 "b"
           {[ "a" := mkSession "a" None 0 450 true; "b" := mkSession "b" None 0 10 true ]}).
Proof. apply cleanupExpiredSessions_sound. lia. Defined.

(** [getSessionStats()] is consistent: every active session is counted
    once as a user or an anonymous session, active sessions are among all
    sessions, [totalSessions] is the number of stored sessions and
    [getActiveSessionsCount()] agrees with [activeSessions]. *)
Theorem getSessionStats_consistent (st : Sessions) :
  let stats := getSessionStats st in
  activeSessions stats = (userSessions stats + anonymousSessions stats)%nat /\
  (activeSessions stats <= totalSessions stats)%nat /\
  totalSessions stats = size st /\
  getActiveSessionsCount st = activeSessions stats.
Proof.
  simpl. split; [|split; [|split]].
  - symmetry. apply length_filter_split.
  - apply length_filter_le.
  - by rewrite length_map, length_map_to_list.
  - done.
Qed.

Lemma endSession_removes_witness :
  let st : Sessions := {[ "a" := mkSession "a" None 0 5 true;
                          "b" := mkSession "b" (Some "u1") 0 7 true ]} in
  fst (getSession defaultSessionTimeout 10 "a" (snd (endSession "a" st))) = None /\
  fst (updateSessionActivity 10 "a" (snd (endSession "a" st))) = false /\
  (fst (endSession "a" st) = true <-> st !! "a" <> None) /\
  ("b" <> "a" -> snd (endSession "a" st) !! "b" = st !! "b").
Proof. cbv zeta. apply endSession_removes. Defined.

End SessionMore.

(** ** Template usage and popularity *)
Module TemplateFacts.
Import TemplateModel.
Open Scope Q_scope.

(** C8: for two templates with the same stored [avgRating] when they are
    saved, the one with strictly more [successfulUses] gets the strictly
    higher [popularityScore]
    [successfulUses * 0.7 + avgRating * 20 * 0.3] from the pre-save hook. *)
Theorem popularity_monotone_in_successes (a b : TemplateDoc)
    (Hrating : avgRating a == avgRating b)
    (Hsucc : (successfulUses (usage b) < successfulUses (usage a))%Z) :
  popularityScore (usage (save b)) < popularityScore (usage (save a)).
Proof.
  unfold save, preSave. simpl.
  rewrite Zlt_Qlt in Hsucc.
  set (sa := inject_Z (successfulUses (usage a))) in *.
  set (sb := inject_Z (successfulUses (usage b))) in *.
  rewrite Hrating. lra.
Qed.

Lemma popularity_monotone_in_successes_witness :
  let a := mkTemplate (mkUsage 12 10 2 1500 0) 4 [4] in
  let b := mkTemplate (mkUsage 9 9 0 1200 0) 4 [5; 3] in
  avgRating a == avgRating b /\
  (successfulUses (usage b) < successfulUses (usage a))%Z /\
  popularityScore (usage (save b)) < popularityScore (usage (save a)).
Proof.
  cbv zeta. split; [reflexivity|]. split; [simpl; lia|].
  apply popularity_monotone_in_successes; [reflexivity|simpl; lia].
Defined.

(** C2: the [incrementUsage] documents run (the second definition)
    averages over [totalUses]: from 2 uses (1 successful) averaging 100 ms,
    a successful 400 ms use gives (100 * 2 + 400) / 3 = 200, where the
    average over successful uses, as the first definition computes it,
    is (100 * 1 + 400) / 2 = 250. *)
Theorem incrementUsage_averages_over_totalUses :
  let t := mkTemplate (mkUsage 2 1 1 100 0) 0 [] in
  successfulUses (usage (incrementUsage (Some 400) (Some true) t)) = 2%Z /\
  avgProcessingTime (usage (incrementUsage (Some 400) (Some true) t)) == 200 /\
  avgProcessingTime (usage (incrementUsage_first 400 true t)) == 250.
Proof. split; [reflexivity|split; vm_compute; reflexivity]. Qed.

End TemplateFacts.

(** ** Further properties of the template usage bookkeeping *)
Module TemplateMore.
Import TemplateModel.
Open Scope Q_scope.

Lemma fold_Qplus_bounds (l : list Q) (a : Q) :
  Forall (fun q => 1 <= q <= 5) l ->
  a + inject_Z (Z.of_nat (length l)) <= fold_left Qplus l a /\
  fold_left Qplus l a <= a + 5 * inject_Z (Z.of_nat (length l)).
Proof.
  revert a. induction l as [|x l IH]; intros a Hl; simpl.
  - change (inject_Z (Z.of_nat 0)) with 0. split; lra.
  - inversion Hl as [|? ? Hx Hl']; subst.
    destruct (IH (a + x) Hl') as [H1 H2].
    rewrite Nat2Z.inj_succ, <- Z.add_1_r, inject_Z_plus. change (inject_Z 1) with 1.
    split; lra.
Qed.

(** Saving a template with feedback whose ratings all lie in 1..5 (the
    schema's bounds) stores an [avgRating] in 1..5: the mean of the
    ratings. Without feedback the stored [avgRating] is kept. *)
Theorem preSave_avgRating_bounds (t : TemplateDoc)
    (Hne : userFeedback t <> [])
    (Hr : Forall (fun q => 1 <= q <= 5) (userFeedback t)) :
  1 <= avgRating (save t) <= 5.
Proof.
  unfold save, preSave. simpl.
  destruct (userFeedback t) as [|x l] eqn:E; [done|].
  destruct (fold_Qplus_bounds (x :: l) 0 Hr) as [H1 H2].
  change (fold_left Qplus l (0 + x)) with (fold_left Qplus (x :: l) 0).
  change (Z.of_nat (S (length l))) with (Z.of_nat (length (x :: l))).
  set (n := inject_Z (Z.of_nat (length (x :: l)))) in *.
  assert (Hn : 0 < n).
  { unfold n. change 0 with (inject_Z 0). rewrite <- Zlt_Qlt. simpl. lia. }
  split.
  - apply Qle_shift_div_l; [done|]. lra.
  - apply Qle_shift_div_r; [done|]. lra.
Qed.

Lemma preSave_avgRating_bounds_witness :
  1 <= avgRating (save (mkTemplate (mkUsage 3 3 0 900 0) 0 [4; 5; 1])) <= 5.
Proof.
  apply preSave_avgRating_bounds; [discriminate|].
  repeat constructor; vm_compute; discriminate.
Defined.

(** Both [incrementUsage] definitions count one more use, as a success or
    a failure, so [totalUses = successfulUses + failedUses] is kept. *)
Theorem incrementUsage_counts (pt : option Q) (s : option bool) (pt1 : Q) (s1 : bool)
    (t : TemplateDoc)
    (Hinv : totalUses (usage t) = (successfulUses (usage t) + failedUses (usage t))%Z) :
  let u := usage (incrementUsage pt s t) in
  let u1 := usage (incrementUsage_first pt1 s1 t) in
  totalUses u = (totalUses (usage t) + 1)%Z /\
  totalUses u = (successfulUses u + failedUses u)%Z /\
  totalUses u1 = (totalUses (usage t) + 1)%Z /\
  totalUses u1 = (successfulUses u1 + failedUses u1)%Z.
Proof.
  unfold incrementUsage, incrementUsage_first, save, preSave, set_usage. simpl.
  destruct s as [[|]|]; destruct s1; simpl; lia.
Qed.

Lemma incrementUsage_counts_witness :
  let t := mkTemplate (mkUsage 5 4 1 100 0) 0 [] in
  let u := usage (incrementUsage None None t) in
  let u1 := usage (incrementUsage_first 300 true t) in
  totalUses u = (totalUses (usage t) + 1)%Z /\
  totalUses u = (successfulUses u + failedUses u)%Z /\
  totalUses u1 = (totalUses (usage t) + 1)%Z /\
  totalUses u1 = (successfulUses u1 + failedUses u1)%Z.
Proof. apply incrementUsage_counts. reflexivity. Defined.

(** The [incrementUsage] documents run keeps [avgProcessingTime] a
    running mean over [totalUses] for each use reported with a non-zero
    processing time [pt]: average times uses grows by exactly [pt]. *)
Theorem incrementUsage_running_mean (pt : Q) (s : option bool) (t : TemplateDoc)
    (Hpt : ~ pt == 0) (Hn : (0 <= totalUses (usage t))%Z) :
  let u := usage (incrementUsage (Some pt) s t) in
  avgProcessingTime u * inject_Z (totalUses u)
  == avgProcessingTime (usage t) * inject_Z (totalUses (usage t)) + pt.
Proof.
  unfold incrementUsage, save, preSave, set_usage, truthy. simpl.
  assert (Hb : Qeq_bool pt 0 = false).
  { destruct (Qeq_bool pt 0) eqn:E; [|done]. apply Qeq_bool_iff in E. contradiction. }
  rewrite Hb. simpl.
  rewrite Z.add_simpl_r.
  assert (Hz : ~ inject_Z (totalUses (usage t) + 1) == 0).
  { change 0 with (inject_Z 0). rewrite inject_Z_injective. lia. }
  field. exact Hz.
Qed.

Lemma incrementUsage_running_mean_witness :
  let u := usage (incrementUsage (Some 400) (Some true) (mkTemplate (mkUsage 2 1 1 100 0) 0 [])) in
  avgProcessingTime u * inject_Z (totalUses u)
  == avgProcessingTime (usage (mkTemplate (mkUsage 2 1 1 100 0) 0 []))
     * inject_Z (totalUses (usage (mkTemplate (mkUsage 2 1 1 100 0) 0 []))) + 400.
Proof.
  apply incrementUsage_running_mean; [vm_compute; discriminate|simpl; lia].
Defined.

Lemma filter_drop_user (u : string) (fb : list Feedback) :
  List.filter (fun f => String.eqb (fbUserId f) u)
    (List.filter (fun f => negb (String.eqb (fbUserId f) u)) fb) = [].
Proof.
  induction fb as [|f fb IH]; simpl; [done|].
  destruct (String.eqb (fbUserId f) u) eqn:E; simpl; [done|]. by rewrite E.
Qed.

Lemma filter_other_user (u u' : string) (fb : list Feedback) :
  u' <> u ->
  List.filter (fun f => String.eqb (fbUserId f) u')
    (List.filter (fun f => negb (String.eqb (fbUserId f) u)) fb)
  = List.filter (fun f => String.eqb (fbUserId f) u') fb.
Proof.
  intros Hne. induction fb as [|f fb IH]; simpl; [done|].
  destruct (String.eqb_spec (fbUserId f) u) as [E|E]; simpl.
  - rewrite E. destruct (String.eqb_spec u u'); [congruence|done].
  - destruct (String.eqb (fbUserId f) u'); [by f_equal|done].
Qed.

(** [addFeedback(userId, rating)] keeps one feedback per user: the
    caller's earlier entries are replaced by the one new entry, every
    other user's entries are kept as they were, and the saved ratings are
    those of the new entries. *)
Theorem addFeedback_one_per_user (u : string) (r : Q) (fb : list Feedback)
    (t : TemplateDoc) :
  List.filter (fun f => String.eqb (fbUserId f) u) (fst (addFeedback u r fb t))
    = [mkFeedback u r] /\
  (forall u', u' <> u ->
     List.filter (fun f => String.eqb (fbUserId f) u') (fst (addFeedback u r fb t))
     = List.filter (fun f => String.eqb (fbUserId f) u') fb) /\
  userFeedback (snd (addFeedback u r fb t)) = map rating (fst (addFeedback u r fb t)).
Proof.
  unfold addFeedback. simpl. split; [|split].
  - rewrite List.filter_app, filter_drop_user. simpl. by rewrite String.eqb_refl.
  - intros u' Hne. rewrite List.filter_app, filter_other_user by done. simpl.
    destruct (String.eqb_spec u u'); [congruence|]. by rewrite app_nil_r.
  - done.
Qed.

Lemma addFeedback_one_per_user_witness :
  let fb := [mkFeedback "u1" 2; mkFeedback "u2" 5; mkFeedback "u1" 3] in
  let t := mkTemplate (mkUsage 0 0 0 0 0) 0 [2; 5; 3] in
  List.filter (fun f => String.eqb (fbUserId f) "u1") (fst (addFeedback "u1" 4 fb t))
    = [mkFeedback "u1" 4] /\
  ("u2" <> "u1" ->
   List.filter (fun f => String.eqb (fbUserId f) "u2") (fst (addFeedback "u1" 4 fb t))
   = List.filter (fun f => String.eqb (fbUserId f) "u2") fb) /\
  userFeedback (snd (addFeedback "u1" 4 fb t)) = map rating (fst (addFeedback "u1" 4 fb t)).
Proof.
  destruct (addFeedback_one_per_user "u1" 4
              [mkFeedback "u1" 2; mkFeedback "u2" 5; mkFeedback "u1" 3]
              (mkTemplate (mkUsage 0 0 0 0 0) 0 [2; 5; 3])) as (H1 & H2 & H3).
  split; [exact H1|]. split; [|exact H3]. apply H2.
Defined.

End TemplateMore.

(** ** Properties of the file-backed template catalogue *)
Module TemplateServiceFacts.
Import TemplateService.

Lemma option_string_eqb_spec (x y : option string) :
  option_string_eqb x y = true <-> x = y.
Proof.
  destruct x as [a|], y as [b|]; simpl; split; try done.
  - by intros ->%String.eqb_eq.
  - intros [= ->]. apply String.eqb_refl.
Qed.

Lemma indexOf_not_in (x : option string) (l : list (option string)) :
  ~ In x l -> indexOf x l = -1.
Proof.
  induction l as [|y l IH]; simpl; intros Hn; [done|].
  destruct (option_string_eqb y x) eqn:E.
  - apply option_string_eqb_spec in E. tauto.
  - rewrite IH by tauto. done.
Qed.

Lemma indexOf_in (x : option string) (l : list (option string)) :
  In x l -> 0 <= indexOf x l < Z.of_nat (length l).
Proof.
  induction l as [|y l IH]; simpl; intros Hin; [done|].
  destruct (option_string_eqb y x) eqn:E; [lia|].
  destruct Hin as [->|Hin].
  - assert (option_string_eqb x x = true) by (by apply option_string_eqb_spec).
    congruence.
  - specialize (IH Hin). destruct (Z.eqb_spec (indexOf x l) (-1)); lia.
Qed.

Lemma indexOf_app_in (x : option string) (pre l : list (option string)) :
  In x pre -> indexOf x (pre ++ l) = indexOf x pre.
Proof.
  induction pre as [|y pre IH]; simpl; intros Hin; [done|].
  destruct (option_string_eqb y x) eqn:E; [done|].
  destruct Hin as [->|Hin].
  - assert (option_string_eqb x x = true) by (by apply option_string_eqb_spec).
    congruence.
  - by rewrite IH.
Qed.

Lemma indexOf_app_first (x : option string) (pre r : list (option string)) :
  ~ In x pre -> indexOf x (pre ++ x :: r) = Z.of_nat (length pre).
Proof.
  induction pre as [|y pre IH]; simpl; intros Hn.
  - assert (option_string_eqb x x = true) by (by apply option_string_eqb_spec).
    by rewrite H.
  - destruct (option_string_eqb y x) eqn:E.
    + apply option_string_eqb_spec in E. tauto.
    + rewrite IH by tauto. destruct (Z.eqb_spec (Z.of_nat (length pre)) (-1)); lia.
Qed.

(** The categories kept from [l], given those before it ([pre]): the
    truthy ones not seen before, at their first occurrence. *)
Fixpoint firsts (pre l : list (option string)) : list (option string) :=
  match l with
  | [] => []
  | x :: r =>
      (if truthy x && negb (existsb (option_string_eqb x) pre) then [x] else [])
      ++ firsts (pre ++ [x]) r
  end.

Lemma existsb_in (x : option string) (l : list (option string)) :
  existsb (option_string_eqb x) l = true <-> In x l.
Proof.
  rewrite existsb_exists. split.
  - intros [y [Hy E]]. apply option_string_eqb_spec in E. by subst.
  - intros Hin. exists x. split; [done|]. by apply option_string_eqb_spec.
Qed.

Lemma filter_firsts (full pre l : list (option string)) :
  full = pre ++ l ->
  map snd (List.filter (fun p => truthy (snd p) && (indexOf (snd p) full =? fst p))
             (combine (map Z.of_nat (seq (length pre) (length l))) l))
  = firsts pre l.
Proof.
  revert pre. induction l as [|x r IH]; intros pre Hfull; simpl; [done|].
  rewrite <- (IH (pre ++ [x])) by (rewrite <- app_assoc; done).
  rewrite length_app. simpl. rewrite Nat.add_1_r.
  destruct (truthy x); simpl; [|done].
  destruct (existsb (option_string_eqb x) pre) eqn:E; simpl.
  - apply existsb_in in E. subst full. rewrite indexOf_app_in by done.
    pose proof (indexOf_in x pre E). destruct (Z.eqb_spec (indexOf x pre)
      (Z.of_nat (length pre))); [lia|]. done.
  - assert (Hn : ~ In x pre) by (intros H; apply existsb_in in H; congruence).
    subst full. rewrite indexOf_app_first by done. by rewrite Z.eqb_refl.
Qed.

Lemma firsts_spec (y : option string) (pre l : list (option string)) :
  In y (firsts pre l) <-> truthy y = true /\ In y l /\ ~ In y pre.
Proof.
  revert pre. induction l as [|x r IH]; intros pre; simpl; [tauto|].
  rewrite in_app_iff, IH, in_app_iff. simpl.
  destruct (truthy x) eqn:Ex; destruct (existsb (option_string_eqb x) pre) eqn:E;
    simpl.
  - apply existsb_in in E. split.
    + intros [[]|(? & ? & ?)]. tauto.
    + intros (Ht & [->|Hin] & Hn); [tauto|]. right. split; [done|]. split; [done|].
      intros [?|[->|[]]]; tauto.
  - assert (Hn : ~ In x pre) by (intros H; apply existsb_in in H; congruence).
    split.
    + intros [[<-|[]]|(? & ? & ?)]; [tauto|]. tauto.
    + intros (Ht & [->|Hin] & Hn'); [tauto|].
      destruct (option_string_eqb_spec x y) as [_ Hxy].
      destruct (option_string_eqb x y) eqn:Exy.
      * left. left. by apply option_string_eqb_spec.
      * right. split; [done|]. split; [done|]. intros [?|[->|[]]]; [tauto|].
        discriminate (Hxy eq_refl).
  - split.
    + intros [[]|(? & ? & ?)]. tauto.
    + intros (Ht & [->|Hin] & Hn); [congruence|]. right. split; [done|].
      split; [done|]. intros [?|[->|[]]]; [tauto|congruence].
  - split.
    + intros [[]|(? & ? & ?)]. tauto.
    + intros (Ht & [->|Hin] & Hn); [congruence|]. right. split; [done|].
      split; [done|]. intros [?|[->|[]]]; [tauto|congruence].
Qed.

Lemma firsts_NoDup (pre l : list (option string)) : List.NoDup (firsts pre l).
Proof.
  revert pre. induction l as [|x r IH]; intros pre; simpl; [constructor|].
  destruct (truthy x && negb (existsb (option_string_eqb x) pre)); simpl; [|done].
  constructor; [|done]. rewrite firsts_spec. intros (_ & _ & Hn).
  apply Hn. apply in_app_iff. simpl. tauto.
Qed.

Definition category_name (o : option string) : string :=
  match o with Some c => c | None => "" end.

Lemma map_category_name_NoDup (l : list (option string)) :
  Forall (fun y => truthy y = true) l -> List.NoDup l ->
  List.NoDup (map category_name l).
Proof.
  induction l as [|y l IH]; simpl; intros Ht Hn; [constructor|].
  inversion Ht as [|? ? Hy Ht']; inversion Hn as [|? ? Hny Hn']; subst.
  constructor; [|auto]. intros Hin. apply in_map_iff in Hin as [z [Ez Hz]].
  apply Hny. rewrite List.Forall_forall in Ht'. specialize (Ht' z Hz).
  destruct y as [a|], z as [b|]; simpl in *; try discriminate. by subst.
Qed.

(** [getCategories()] lists every non-empty category of the catalogue
    exactly once, and nothing else. *)
Theorem getCategories_distinct_complete (templates : list Template) :
  List.NoDup (getCategories templates) /\
  (forall c, In c (getCategories templates) <->
             c <> ""%string /\ exists t, In t templates /\ category t = Some c).
Proof.
  unfold getCategories.
  assert (Hg : forall l : list (Z * option string),
            map (fun p => match snd p with Some c => c | None => ""%string end) l
            = map category_name (map snd l))
    by (intros l; rewrite map_map; reflexivity).
  rewrite Hg.
  pose proof (filter_firsts (map category templates) [] (map category templates) eq_refl)
    as Hf.
  change (length (@nil (option string))) with 0%nat in Hf.
  rewrite Hf.
  assert (Ht : Forall (fun y => truthy y = true) (firsts [] (map category templates))).
  { apply List.Forall_forall. intros y Hy. by apply firsts_spec in Hy as [? _]. }
  split.
  - apply map_category_name_NoDup; [done|apply firsts_NoDup].
  - intros c. rewrite in_map_iff. split.
    + intros [y [<- Hy]]. pose proof Hy as Hy'.
      apply firsts_spec in Hy as (Hty & Hin & _).
      apply in_map_iff in Hin as [t [Et Hint]].
      destruct y as [a|]; simpl in Hty; [|done]. simpl.
      split; [by destruct (String.eqb_spec a "")|]. by exists t.
    + intros [Hc [t [Hint Et]]]. exists (Some c). split; [done|].
      apply firsts_spec. split; [simpl; destruct (String.eqb_spec c ""); [congruence|done]|].
      split; [|intros []]. apply in_map_iff. by exists t.
Qed.

(** Looking a template up by id: in a catalogue with distinct ids, every
    template is found by its id, and [getTemplatePrompt] returns its
    prompt unless that prompt is empty; an id no template has gives
    [null] from both lookups. *)
Theorem template_lookup (templates : list Template) (t : Template) (i : string) :
  (List.NoDup (map id templates) -> In t templates ->
   getTemplateById (id t) templates = Some t /\
   getTemplatePrompt (id t) templates
   = if String.eqb (prompt t) "" then None else Some (prompt t)) /\
  (Forall (fun t' => id t' <> i) templates ->
   getTemplateById i templates = None /\ getTemplatePrompt i templates = None).
Proof.
  unfold getTemplatePrompt, getTemplateById. split.
  - intros Hn Hin.
    assert (Hf : find (fun t' => String.eqb (id t') (id t)) templates = Some t).
    { induction templates as [|t0 ts IH]; simpl in *; [done|].
      inversion Hn as [|? ? Hnin Hn']; subst.
      destruct (String.eqb_spec (id t0) (id t)) as [E|E].
      - destruct Hin as [->|Hin]; [done|].
        exfalso. apply Hnin. rewrite E. by apply in_map.
      - destruct Hin as [->|Hin]; [done|]. auto. }
    by rewrite Hf.
  - intros Hall.
    assert (Hf : find (fun t' => String.eqb (id t') i) templates = None).
    { induction Hall as [|t0 ts Ht0 Hall IH]; simpl; [done|].
      destruct (String.eqb_spec (id t0) i); [done|]. done. }
    by rewrite Hf.
Qed.

Lemma template_lookup_witness :
  let t1 := mkTemplate "t1" "Portrait" "/p/t1.png" "Make it a portrait" None (Some "portrait") in
  let t2 := mkTemplate "t2" "Blank" "/p/t2.png" "" None None in
  (getTemplateById (id t2) [t1; t2] = Some t2 /\
   getTemplatePrompt (id t2) [t1; t2]
   = if String.eqb (prompt t2) "" then None else Some (prompt t2)) /\
  (getTemplateById "t9" [t1; t2] = None /\ getTemplatePrompt "t9" [t1; t2] = None).
Proof.
  destruct (template_lookup
              [mkTemplate "t1" "Portrait" "/p/t1.png" "Make it a portrait" None (Some "portrait");
               mkTemplate "t2" "Blank" "/p/t2.png" "" None None]
              (mkTemplate "t2" "Blank" "/p/t2.png" "" None None) "t9") as [H1 H2].
  split.
  - apply H1; [vm_compute; repeat constructor; simpl; intuition discriminate|simpl; tauto].
  - apply H2. repeat constructor; discriminate.
Defined.

Lemma getCategories_distinct_complete_witness :
  let ts := [mkTemplate "t1" "A" "/a.png" "p1" None (Some "portrait");
             mkTemplate "t2" "B" "/b.png" "p2" None None;
             mkTemplate "t3" "C" "/c.png" "p3" None (Some "");
             mkTemplate "t4" "D" "/d.png" "p4" None (Some "portrait")] in
  List.NoDup (getCategories ts) /\
  (forall c, In c (getCategories ts) <->
             c <> ""%string /\ exists t, In t ts /\ category t = Some c).
Proof. cbv zeta. apply getCategories_distinct_complete. Defined.

End TemplateServiceFacts.

(** ** Image-edit handler *)
Module EditPipelineFacts.
Import EditPipeline.
Open Scope string_scope.

Lemma falsy_false (s : string) : s <> "" -> falsy s = false.
Proof. intros H. unfold falsy. by apply String.eqb_neq. Qed.

(** C7: a request with a file that passes the image checks and a
    [templateId] found neither by [Template.findById] (which answers
    [null] or throws) nor by the template service is answered with the
    [NOT_FOUND] error, before any S3 upload and without any edit record
    handed to the analytics service. *)
Theorem unknown_template_not_found (env : Env) (req : EditRequest)
    (f : UploadedFile) (o : Optimized)
    (Hfile : file req = Some f)
    (Htid : templateIdField req <> "")
    (Hvalid : validateImage env = Ok true)
    (Hmeta : getImageMetadata env = Ok tt)
    (Hopt : optimizeImage env = Ok o)
    (Hdb : findById env = Ok None \/ exists e, findById env = Err e)
    (Hsvc : getTemplatePrompt env = None) :
  snd (handle env req) = ErrorReply "Template not found" "NOT_FOUND" /\
  uploaded (fst (handle env req)) = false /\
  recorded (fst (handle env req)) = false.
Proof.
  unfold handle, editImage, try_catch, bind, call, emit, lift, ret, throw.
  rewrite Hfile, (falsy_false _ Htid), Hvalid, Hmeta, Hopt. simpl.
  destruct (falsy (sessionHeader req)); simpl;
  unfold resolvePrompt, try_catch, bind, call, emit, lift, ret, throw;
  destruct Hdb as [Hdb|[e Hdb]]; rewrite Hdb; simpl; rewrite Hsvc; simpl;
  repeat split.
Qed.

Lemma unknown_template_not_found_witness :
  let req := mkRequest (Some (mkFile "portrait.jpg" 2097152)) "no-such-style" "" in
  let env := mkEnv "3f6c" (Ok true) (Ok tt) (Ok (mkOptimized 900000 57))
               (Err (PlainError "CastError" "Cast to ObjectId failed")) None
               (Ok "https://bucket/uploads/a.jpg") (Ok "https://cdn/edited.png")
               (Ok tt) (Ok tt) 0 0 in
  snd (handle env req) = ErrorReply "Template not found" "NOT_FOUND" /\
  uploaded (fst (handle env req)) = false /\
  recorded (fst (handle env req)) = false.
Proof.
  cbv zeta.
  apply (unknown_template_not_found _ _ (mkFile "portrait.jpg" 2097152)
           (mkOptimized 900000 57)).
  - reflexivity.
  - discriminate.
  - reflexivity.
  - reflexivity.
  - reflexivity.
  - right. eexists. reflexivity.
  - reflexivity.
Defined.

(** C1: a request that gets past validation and template resolution,
    whose S3 upload succeeds and whose OpenAI call fails, is answered
    with an error reply ([success: false]), and the handler makes no
    call to [analyticsService.recordEditSession]: no [failed] edit
    record is written. *)
Theorem upstream_failure_not_recorded (env : Env) (req : EditRequest)
    (f : UploadedFile) (o : Optimized) (p url : string) (e : AppErr)
    (Hfile : file req = Some f)
    (Htid : templateIdField req <> "")
    (Hvalid : validateImage env = Ok true)
    (Hmeta : getImageMetadata env = Ok tt)
    (Hopt : optimizeImage env = Ok o)
    (Hdb : findById env = Ok None)
    (Hsvc : getTemplatePrompt env = Some p) (Hp : p <> "")
    (Hs3 : uploadImage env = Ok url)
    (Hai : openaiEditImage env = Err e) :
  success (snd (handle env req)) = false /\
  recorded (fst (handle env req)) = false.
Proof.
  unfold handle, editImage, try_catch, bind, call, emit, lift, ret, throw.
  rewrite Hfile, (falsy_false _ Htid), Hvalid, Hmeta, Hopt. simpl.
  destruct (falsy (sessionHeader req)); simpl;
  unfold resolvePrompt, try_catch, bind, call, emit, lift, ret, throw;
  rewrite Hdb; simpl; rewrite Hsvc, (falsy_false _ Hp); simpl;
  rewrite Hs3; simpl; rewrite Hai; simpl;
  destruct (String.eqb (errName e) "ExternalServiceError"); simpl;
  split; reflexivity.
Qed.

Lemma upstream_failure_not_recorded_witness :
  let req := mkRequest (Some (mkFile "portrait.jpg" 2097152)) "vintage" "" in
  let env := mkEnv "3f6c" (Ok true) (Ok tt) (Ok (mkOptimized 900000 57))
               (Ok None) (Some "Transform into a vintage photograph")
               (Ok "https://bucket/uploads/a.jpg")
               (Err (PlainError "TimeoutError" "OpenAI request timed out"))
               (Ok tt) (Ok tt) 0 30000 in
  success (snd (handle env req)) = false /\
  recorded (fst (handle env req)) = false.
Proof.
  cbv zeta.
  apply (upstream_failure_not_recorded _ _ (mkFile "portrait.jpg" 2097152)
           (mkOptimized 900000 57) "Transform into a vintage photograph"
           "https://bucket/uploads/a.jpg"
           (PlainError "TimeoutError" "OpenAI request timed out"));
    try reflexivity; discriminate.
Defined.

(** The success path does hand a [completed] record to the analytics
    service. *)
Example success_path_records :
  let req := mkRequest (Some (mkFile "portrait.jpg" 2097152)) "vintage" "s-42" in
  let env := mkEnv "3f6c" (Ok true) (Ok tt) (Ok (mkOptimized 900000 57))
               (Ok None) (Some "Transform into a vintage photograph")
               (Ok "https://bucket/uploads/a.jpg") (Ok "https://cdn/edited.png")
               (Ok tt) (Ok tt) 0 4200 in
  handle env req =
  ([EvTouchSession "s-42"; EvValidateImage; EvGetImageMetadata; EvOptimizeImage;
    EvFindTemplate "vintage"; EvTemplatePrompt "vintage"; EvUploadImage;
    EvOpenAIEdit "https://bucket/uploads/a.jpg" "Transform into a vintage photograph";
    EvGetSession "s-42"; EvRecordEditSession "vintage" "completed"],
   EditSucceeded "https://cdn/edited.png" 4200 "s-42").
Proof. reflexivity. Qed.

(** A timed-out OpenAI call reaches the client as a [TIMEOUT_ERROR] reply. *)
Example timeout_reply :
  let req := mkRequest (Some (mkFile "portrait.jpg" 2097152)) "vintage" "" in
  let env := mkEnv "3f6c" (Ok true) (Ok tt) (Ok (mkOptimized 900000 57))
               (Ok None) (Some "Transform into a vintage photograph")
               (Ok "https://bucket/uploads/a.jpg")
               (Err (PlainError "TimeoutError" "OpenAI request timed out"))
               (Ok tt) (Ok tt) 0 30000 in
  snd (handle env req) = ErrorReply "OpenAI request timed out" "TIMEOUT_ERROR".
Proof. reflexivity. Qed.

End EditPipelineFacts.

(** ** Further properties of the image-edit handler *)
Module EditPipelineMore.
Import EditPipeline EditPipelineFacts.
Open Scope string_scope.

(** Unfold the handler and its monad, then case on every collaborator
    answer and request field the computation inspects. *)
Ltac run_handler :=
  unfold handle, editImage, recordSuccess, resolvePrompt, try_catch, bind, call,
    emit, lift, ret, throw;
  simpl;
  repeat (match goal with
          | |- context [match ?x with _ => _ end] =>
              lazymatch x with
              | context [match _ with _ => _ end] => fail
              | _ => destruct x
              end
          end; simpl).

(** Requests are validated before any collaborator is called: without a
    file the reply is [VALIDATION_ERROR] "No image file provided", and
    with a file but no [templateId] it is [VALIDATION_ERROR] "Template ID
    is required"; in both cases no call is made. *)
Theorem validation_before_calls (env : Env) (req : EditRequest) :
  (file req = None ->
   handle env req = ([], ErrorReply "No image file provided" "VALIDATION_ERROR")) /\
  (forall f, file req = Some f -> templateIdField req = "" ->
   handle env req = ([], ErrorReply "Template ID is required" "VALIDATION_ERROR")).
Proof.
  split.
  - intros Hf. unfold handle, editImage, try_catch, bind, throw. by rewrite Hf.
  - intros f Hf Ht. unfold handle, editImage, try_catch, bind, ret, throw.
    rewrite Hf, Ht. reflexivity.
Qed.

Lemma validation_before_calls_witness :
  let env := mkEnv "3f6c" (Ok true) (Ok tt) (Ok (mkOptimized 900000 57))
               (Ok None) (Some "Transform into a vintage photograph")
               (Ok "https://bucket/uploads/a.jpg") (Ok "https://cdn/edited.png")
               (Ok tt) (Ok tt) 0 0 in
  handle env (mkRequest None "vintage" "") =
    ([], ErrorReply "No image file provided" "VALIDATION_ERROR") /\
  handle env (mkRequest (Some (mkFile "a.jpg" 10)) "" "") =
    ([], ErrorReply "Template ID is required" "VALIDATION_ERROR").
Proof.
  cbv zeta. split.
  - apply (validation_before_calls _ (mkRequest None "vintage" "")). reflexivity.
  - apply (validation_before_calls _ (mkRequest (Some (mkFile "a.jpg" 10)) "" ""))
      with (f := mkFile "a.jpg" 10); reflexivity.
Defined.

(** A file rejected by [validateImage] is answered with
    [FILE_PROCESSING_ERROR], before any upload and without an edit
    record. *)
Theorem invalid_image_rejected (env : Env) (req : EditRequest) (f : UploadedFile)
    (Hfile : file req = Some f)
    (Htid : templateIdField req <> "")
    (Hvalid : validateImage env = Ok false) :
  snd (handle env req)
    = ErrorReply "File processing error: Invalid image file" "FILE_PROCESSING_ERROR" /\
  uploaded (fst (handle env req)) = false /\
  recorded (fst (handle env req)) = false.
Proof.
  unfold handle, editImage, try_catch, bind, call, emit, lift, ret, throw.
  rewrite Hfile, (falsy_false _ Htid), Hvalid. simpl.
  destruct (falsy (sessionHeader req)); simpl; repeat split.
Qed.

(** Analytics never changes the reply: whatever
    [analyticsService.recordEditSession] and [template.incrementUsage]
    answer (including throwing), the client gets the same response. *)
Theorem analytics_does_not_change_reply (env : Env) (req : EditRequest)
    (r1 r2 : Result unit) :
  snd (handle (mkEnv (newSessionId env) (validateImage env) (getImageMetadata env)
                 (optimizeImage env) (findById env) (getTemplatePrompt env)
                 (uploadImage env) (openaiEditImage env) r1 r2
                 (startTime env) (endTime env)) req)
  = snd (handle env req).
Proof. run_handler; reflexivity. Qed.


(** A non-empty prompt on the database template takes precedence: the
    template service is not consulted and OpenAI is called with that
    prompt on the uploaded image. *)
Theorem db_prompt_precedence (env : Env) (req : EditRequest) (f : UploadedFile)
    (o : Optimized) (t : DbTemplate) (url : string)
    (Hfile : file req = Some f)
    (Htid : templateIdField req <> "")
    (Hvalid : validateImage env = Ok true)
    (Hmeta : getImageMetadata env = Ok tt)
    (Hopt : optimizeImage env = Ok o)
    (Hdb : findById env = Ok (Some t)) (Hp : prompt t <> "")
    (Hs3 : uploadImage env = Ok url) :
  In (EvOpenAIEdit url (prompt t)) (fst (handle env req)) /\
  ~ In (EvTemplatePrompt (templateIdField req)) (fst (handle env req)).
Proof.
  unfold handle, editImage, try_catch, bind, call, emit, lift, ret, throw.
  rewrite Hfile, (falsy_false _ Htid), Hvalid, Hmeta, Hopt. simpl.
  destruct (falsy (sessionHeader req)); simpl;
  unfold resolvePrompt, try_catch, bind, call, emit, lift, ret, throw;
  rewrite Hdb; simpl; rewrite (falsy_false _ Hp); simpl; rewrite Hs3; simpl;
  unfold recordSuccess, try_catch, bind, call, emit, lift, ret;
  destruct (openaiEditImage env) as [u|e]; simpl;
  try destruct (recordEditSession env); simpl;
  try destruct (hasIncrementUsage t); simpl;
  try destruct (incrementUsageCall env); simpl;
  try destruct (String.eqb (errName e) "ExternalServiceError"); simpl;
  (split; [tauto|intros H; repeat (destruct H as [H|H]; [discriminate H|]); exact H]).
Qed.

(** When [Template.findById] throws, answers [null] or has an empty
    prompt, the template service's non-empty prompt is the one OpenAI is
    called with. *)
Theorem service_prompt_fallback (env : Env) (req : EditRequest) (f : UploadedFile)
    (o : Optimized) (p url : string)
    (Hfile : file req = Some f)
    (Htid : templateIdField req <> "")
    (Hvalid : validateImage env = Ok true)
    (Hmeta : getImageMetadata env = Ok tt)
    (Hopt : optimizeImage env = Ok o)
    (Hdb : (exists e, findById env = Err e) \/ findById env = Ok None \/
           exists t, findById env = Ok (Some t) /\ prompt t = "")
    (Hsvc : getTemplatePrompt env = Some p) (Hp : p <> "")
    (Hs3 : uploadImage env = Ok url) :
  In (EvTemplatePrompt (templateIdField req)) (fst (handle env req)) /\
  In (EvOpenAIEdit url p) (fst (handle env req)).
Proof.
  unfold handle, editImage, try_catch, bind, call, emit, lift, ret, throw.
  rewrite Hfile, (falsy_false _ Htid), Hvalid, Hmeta, Hopt. simpl.
  destruct Hdb as [[e Hdb]|[Hdb|[t [Hdb Hpt]]]];
  destruct (falsy (sessionHeader req)); simpl;
  unfold resolvePrompt, try_catch, bind, call, emit, lift, ret, throw;
  rewrite Hdb; simpl; try rewrite Hpt; simpl;
  rewrite Hsvc, (falsy_false _ Hp); simpl; rewrite Hs3; simpl;
  unfold recordSuccess, try_catch, bind, call, emit, lift, ret;
  destruct (openaiEditImage env) as [u|e']; simpl;
  try destruct (recordEditSession env); simpl;
  try destruct (hasIncrementUsage t); simpl;
  try destruct (incrementUsageCall env); simpl;
  try destruct (String.eqb (errName e') "ExternalServiceError"); simpl;
  split; tauto.
Qed.

(** A successful reply carries the request's [x-session-id], or the id
    of the session created for it when the header is absent, and the
    processing time [endTime - startTime]. *)
Theorem success_reply_session (env : Env) (req : EditRequest)
    (url : string) (ms : Z) (sid : string)
    (Hok : snd (handle env req) = EditSucceeded url ms sid) :
  sid = (if falsy (sessionHeader req) then newSessionId env else sessionHeader req) /\
  ms = (endTime env - startTime env)%Z /\
  (falsy (sessionHeader req) = true ->
   In (EvCreateSession (newSessionId env)) (fst (handle env req))).
Proof.
  revert Hok. run_handler; intros Hok; try discriminate;
    injection Hok as <- <- <-; (split; [done|split; [done|]]);
    intros; try discriminate; simpl; tauto.
Qed.

Lemma invalid_image_rejected_witness :
  let req := mkRequest (Some (mkFile "notes.txt" 120)) "vintage" "s-42" in
  let env := mkEnv "3f6c" (Ok false) (Ok tt) (Ok (mkOptimized 100 50))
               (Ok None) (Some "Transform into a vintage photograph")
               (Ok "https://bucket/uploads/a.jpg") (Ok "https://cdn/edited.png")
               (Ok tt) (Ok tt) 0 0 in
  snd (handle env req)
    = ErrorReply "File processing error: Invalid image file" "FILE_PROCESSING_ERROR" /\
  uploaded (fst (handle env req)) = false /\
  recorded (fst (handle env req)) = false.
Proof.
  cbv zeta. apply (invalid_image_rejected _ _ (mkFile "notes.txt" 120));
    [reflexivity|discriminate|reflexivity].
Defined.


Lemma db_prompt_precedence_witness :
  let req := mkRequest (Some (mkFile "portrait.jpg" 2097152)) "vintage" "s-42" in
  let env := mkEnv "3f6c" (Ok true) (Ok tt) (Ok (mkOptimized 900000 57))
               (Ok (Some (mkDbTemplate "Make it vintage" true)))
               (Some "Transform into a vintage photograph")
               (Ok "https://bucket/uploads/a.jpg") (Ok "https://cdn/edited.png")
               (Ok tt) (Ok tt) 0 4200 in
  In (EvOpenAIEdit "https://bucket/uploads/a.jpg" (prompt (mkDbTemplate "Make it vintage" true)))
     (fst (handle env req)) /\
  ~ In (EvTemplatePrompt (templateIdField req)) (fst (handle env req)).
Proof.
  cbv zeta.
  apply (db_prompt_precedence _ _ (mkFile "portrait.jpg" 2097152)
           (mkOptimized 900000 57)); try reflexivity; discriminate.
Defined.

Lemma service_prompt_fallback_witness :
  let req := mkRequest (Some (mkFile "portrait.jpg" 2097152)) "vintage" "" in
  let env := mkEnv "3f6c" (Ok true) (Ok tt) (Ok (mkOptimized 900000 57))
               (Err (PlainError "CastError" "Cast to ObjectId failed"))
               (Some "Transform into a vintage photograph")
               (Ok "https://bucket/uploads/a.jpg") (Ok "https://cdn/edited.png")
               (Ok tt) (Ok tt) 0 4200 in
  In (EvTemplatePrompt (templateIdField req)) (fst (handle env req)) /\
  In (EvOpenAIEdit "https://bucket/uploads/a.jpg" "Transform into a vintage photograph")
     (fst (handle env req)).
Proof.
  cbv zeta.
  apply (service_prompt_fallback _ _ (mkFile "portrait.jpg" 2097152)
           (mkOptimized 900000 57)); try reflexivity; try discriminate.
  left. eexists. reflexivity.
Defined.

Lemma success_reply_session_witness :
  let req := mkRequest (Some (mkFile "portrait.jpg" 2097152)) "vintage" "" in
  let env := mkEnv "3f6c" (Ok true) (Ok tt) (Ok (mkOptimized 900000 57))
               (Ok None) (Some "Transform into a vintage photograph")
               (Ok "https://bucket/uploads/a.jpg") (Ok "https://cdn/edited.png")
               (Ok tt) (Ok tt) 0 4200 in
  "3f6c" = (if falsy (sessionHeader req) then newSessionId env else sessionHeader req) /\
  4200%Z = (endTime env - startTime env)%Z /\
  (falsy (sessionHeader req) = true ->
   In (EvCreateSession (newSessionId env)) (fst (handle env req))).
Proof.
  cbv zeta. apply (success_reply_session _ _ "https://cdn/edited.png"). reflexivity.
Defined.

End EditPipelineMore.
